(** * Clipboard: the action handlers of [src/clipboard/src/actions.cpp]

    A shallow embedding of [PerformAction::copyItem], [copy], [paste] and
    [removeRegex], and the properties of the copy/paste engine that the
    specification states about them.

    The handlers are imperative C++: they read and write process-wide
    globals ([copying], [successes], [action], [io_type], [path]), call
    [std::filesystem], throw and catch [fs::filesystem_error], and may
    leave through [exit].  They are embedded in a state-and-exception
    monad [M] over a record of those globals, the file system being an
    abstract [World] reached through the operations of a [Platform]. *)

From Stdlib Require Import String Ascii List ZArith NArith Bool Lia.
Import ListNotations.
Open Scope string_scope.

(** ** Plain data *)

(** [fs::path]: a path in its native string form. *)
Definition fs_path := string.

(** [std::error_code], by its numeric value. *)
Definition error_code := Z.

(** The [std::errc] conditions named below, with their POSIX values. *)
Definition operation_not_permitted : error_code := 1%Z.
Definition no_such_file_or_directory : error_code := 2%Z.
Definition permission_denied : error_code := 13%Z.
Definition cross_device_link : error_code := 18%Z.

(** [fs::copy_options] is a bitmask type; [a | b] is [Z.lor a b].
    [create_hard_links] carries the value libstdc++ gives it. *)
Definition copy_options := Z.
Definition create_hard_links : copy_options := 256%Z.

(** [enum class CopyPolicy] is declared in clipboard.hpp.  The handlers
    name [SkipAll], [ReplaceAll] and [ReplaceOnce]; the remaining
    enumerators follow the specification, [Unknown] being the state in
    which no decision is stored. *)
Inductive CopyPolicy := ReplaceAll | ReplaceOnce | SkipOnce | SkipAll | Unknown.

(** [enum class Action] and [enum class IOType], by the enumerators the
    handlers refer to. *)
Inductive Action := Cut | Copy | Paste | OtherAction.
Inductive IOType := Pipe | Text | File.

(** What a path denotes, as far as the success counters care. *)
Inductive ItemKind := IsFile | IsDirectory.

(** Result of a [std::filesystem] call: a value, or the code carried by
    the [fs::filesystem_error] it throws. *)
Inductive fs_result (A : Type) :=
| FsOk (a : A)
| FsErr (ec : error_code).
Arguments FsOk {A} a.
Arguments FsErr {A} ec.

(** ** The platform

    Everything the handlers obtain from outside this translation unit:
    the path algebra of [fs::path], the file-system calls, [std::regex],
    and the helpers declared in clipboard.hpp ([userDecision],
    [writeToFile], [fileContents], [pipedInContent]).  A call that can
    change the file system returns the new [World]. *)
Class Platform := {
  World : Type;
  (* fs::path *)
  filename : fs_path -> fs_path;
  parent_path : fs_path -> fs_path;
  path_append : fs_path -> fs_path -> fs_path;
  (* std::filesystem *)
  fs_exists : fs_path -> World -> fs_result bool;
  fs_equivalent : fs_path -> fs_path -> World -> fs_result bool;
  fs_is_directory : fs_path -> World -> fs_result bool;
  fs_is_regular_file : fs_path -> World -> fs_result bool;
  fs_current_path : World -> fs_result fs_path;
  fs_absolute : fs_path -> World -> fs_result fs_path;
  fs_directory_iterator : fs_path -> World -> fs_result (list fs_path);
  fs_create_directories : fs_path -> World -> fs_result bool * World;
  fs_copy : fs_path -> fs_path -> copy_options -> World -> fs_result unit * World;
  fs_remove_all : fs_path -> World -> fs_result N * World;
  (* std::regex *)
  regex : Type;
  regex_compile : string -> option regex;
  regex_match : string -> regex -> bool;
  regex_replace : string -> regex -> string -> string;
  (* clipboard.hpp *)
  item_kind : fs_path -> World -> ItemKind;
  user_decision : string -> World -> CopyPolicy * World;
  write_file : fs_path -> string -> bool -> World -> N * World;
  file_contents : fs_path -> World -> string;
  piped_in_content : World -> string * World
}.

Declare Scope path_scope.
Delimit Scope path_scope with path.
Notation "a // b" := (path_append a b) (at level 40, left associativity) : path_scope.

(** ** Observable calls

    Every call that leaves the translation unit is appended to a trace,
    so that "no copy was attempted" or "the user was asked again" are
    statements about the program's run. *)
Inductive Event :=
| EvExists (p : fs_path)
| EvEquivalent (a b : fs_path)
| EvIsDirectory (p : fs_path)
| EvIsRegularFile (p : fs_path)
| EvCurrentPath
| EvAbsolute (p : fs_path)
| EvDirectoryIterator (p : fs_path)
| EvCreateDirectories (p : fs_path)
| EvCopy (from to : fs_path) (o : copy_options)
| EvRemoveAll (p : fs_path)
| EvUserDecision (name : string)
| EvStopIndicator
| EvStartIndicator
| EvWriteToFile (p : fs_path) (content : string) (append : bool)
| EvFileContents (p : fs_path)
| EvPipedInContent
| EvNoMatchMessage.

Definition is_copy (e : Event) : bool :=
  match e with EvCopy _ _ _ => true | _ => false end.

Definition is_user_decision (e : Event) : bool :=
  match e with EvUserDecision _ => true | _ => false end.

Definition is_write (e : Event) : bool :=
  match e with
  | EvCopy _ _ _ | EvCreateDirectories _ | EvRemoveAll _ | EvWriteToFile _ _ _ => true
  | _ => false
  end.

(** ** The globals *)

(** [successes]: three counters, declared in clipboard.hpp; they are
    only ever added to, and are kept unbounded here. *)
Record Successes := mkSuccesses {
  files : N;
  directories : N;
  bytes : N
}.

(** One more item of kind [k]. *)
Definition count_item (k : ItemKind) (c : Successes) : Successes :=
  match k with
  | IsDirectory => mkSuccesses (files c) (directories c + 1) (bytes c)
  | IsFile => mkSuccesses (files c + 1) (directories c) (bytes c)
  end.

(** The fields of [copying] the handlers use. *)
Record Copying := mkCopying {
  items : list fs_path;
  use_safe_copy : bool;
  opts : copy_options;
  policy : CopyPolicy;
  failedItems : list (string * error_code);
  buffer : string
}.

(** The global [path]: the clipboard's data directory, its raw text
    file ([path.data.raw]) and the originals list. *)
Record Clipboard := mkClipboard {
  data : fs_path;
  data_raw : fs_path;
  metadata_originals : fs_path
}.

(** ** The monad

    A handler either returns, throws, or ends the process with [exit]. *)
Inductive exn :=
| filesystem_error (ec : error_code)
| regex_error.

Inductive Outcome (A : Type) :=
| Ret (a : A)
| Throw (e : exn)
| Exit (status : Z).
Arguments Ret {A} a.
Arguments Throw {A} e.
Arguments Exit {A} status.

Section Embedding.
Context {P : Platform}.

Record State := mkState {
  copying : Copying;
  successes : Successes;
  action : Action;
  io_type : IOType;
  path : Clipboard;
  world : World;
  trace : list Event
}.

Definition with_copying (c : Copying) (s : State) : State :=
  mkState c (successes s) (action s) (io_type s) (path s) (world s) (trace s).
Definition with_successes (x : Successes) (s : State) : State :=
  mkState (copying s) x (action s) (io_type s) (path s) (world s) (trace s).
Definition with_world (w : World) (s : State) : State :=
  mkState (copying s) (successes s) (action s) (io_type s) (path s) w (trace s).
Definition with_trace (t : list Event) (s : State) : State :=
  mkState (copying s) (successes s) (action s) (io_type s) (path s) (world s) t.

Definition with_policy (p : CopyPolicy) (c : Copying) : Copying :=
  mkCopying (items c) (use_safe_copy c) (opts c) p (failedItems c) (buffer c).
Definition with_failedItems (l : list (string * error_code)) (c : Copying) : Copying :=
  mkCopying (items c) (use_safe_copy c) (opts c) (policy c) l (buffer c).

(** The monad of the handlers. *)
Definition M (A : Type) : Type := State -> Outcome A * State.

Definition ret {A} (a : A) : M A := fun s => (Ret a, s).

Definition bind {A B} (m : M A) (k : A -> M B) : M B :=
  fun s =>
    match m s with
    | (Ret a, s') => k a s'
    | (Throw e, s') => (Throw e, s')
    | (Exit n, s') => (Exit n, s')
    end.

Definition throw {A} (e : exn) : M A := fun s => (Throw e, s).
Definition exit {A} (status : Z) : M A := fun s => (Exit status, s).
Definition gets {A} (f : State -> A) : M A := fun s => (Ret (f s), s).
Definition modify (f : State -> State) : M unit := fun s => (Ret tt, f s).

End Embedding.

Declare Scope monad_scope.
Delimit Scope monad_scope with monad.
Notation "x <- m ;; k" := (bind m (fun x => k))
  (at level 61, m at next level, right associativity) : monad_scope.
Notation "m ;; k" := (bind m (fun _ => k))
  (at level 61, right associativity) : monad_scope.
Open Scope monad_scope.

Definition EXIT_FAILURE : Z := 1%Z.

Section Handlers.
Context {P : Platform}.
Open Scope path_scope.

(** ** Calls that leave the translation unit *)

Definition log (e : Event) : M unit :=
  modify (fun s => with_trace (trace s ++ [e]) s).

(** A [std::filesystem] call that only inspects the file system. *)
Definition query {A} (e : Event) (q : World -> fs_result A) : M A :=
  fun s =>
    let s' := with_trace (trace s ++ [e]) s in
    match q (world s) with
    | FsOk a => (Ret a, s')
    | FsErr ec => (Throw (filesystem_error ec), s')
    end.

(** A [std::filesystem] call that may change the file system, also when
    it throws. *)
Definition effect {A} (e : Event) (f : World -> fs_result A * World) : M A :=
  fun s =>
    let (r, w') := f (world s) in
    let s' := with_world w' (with_trace (trace s ++ [e]) s) in
    match r with
    | FsOk a => (Ret a, s')
    | FsErr ec => (Throw (filesystem_error ec), s')
    end.

(** [try { m } catch (const fs::filesystem_error& e) { h e.code() }];
    any other exception, and [exit], pass through. *)
Definition try_catch {A} (m : M A) (h : error_code -> M A) : M A :=
  fun s =>
    match m s with
    | (Throw (filesystem_error ec), s') => h ec s'
    | r => r
    end.

(** [for (const auto& x : l) body(x);] *)
Fixpoint for_each {A} (l : list A) (body : A -> M unit) : M unit :=
  match l with
  | [] => ret tt
  | x :: l' => body x ;; for_each l' body
  end.

(** [std::transform(items, back_inserter(regexes), std::regex(item))]:
    the patterns are compiled in order, and the first that does not
    compile throws [std::regex_error]. *)
Fixpoint compile_list (l : list string) : option (list regex) :=
  match l with
  | [] => Some []
  | x :: l' =>
      match regex_compile x with
      | Some r => option_map (cons r) (compile_list l')
      | None => None
      end
  end.

Definition compile_all (l : list string) : M (list regex) :=
  match compile_list l with
  | Some rs => ret rs
  | None => throw regex_error
  end.

(** The helpers of clipboard.hpp, through the platform.  The two that
    drive the progress indicator touch none of the globals used here. *)
Definition stopIndicator : M unit := log EvStopIndicator.
Definition startIndicator : M unit := log EvStartIndicator.

Definition userDecision (name : string) : M CopyPolicy :=
  fun s =>
    let (d, w') := user_decision name (world s) in
    (Ret d, with_world w' (with_trace (trace s ++ [EvUserDecision name]) s)).

Definition writeToFile (p : fs_path) (content : string) (append : bool) : M N :=
  fun s =>
    let (n, w') := write_file p content append (world s) in
    (Ret n, with_world w' (with_trace (trace s ++ [EvWriteToFile p content append]) s)).

Definition fileContents (p : fs_path) : M string :=
  fun s => (Ret (file_contents p (world s)), with_trace (trace s ++ [EvFileContents p]) s).

Definition pipedInContent : M string :=
  fun s =>
    let (c, w') := piped_in_content (world s) in
    (Ret c, with_world w' (with_trace (trace s ++ [EvPipedInContent]) s)).

(** Modelled from the spec: [incrementSuccessesForItem] is defined in
    clipboard.hpp, which is not part of the sources.  Section 4.1: "On
    success, increments the Aggregator's matching counter (file count +1,
    or directory count +1 ...)"; section 4.4: "increments one of three
    independent counters; never decrements". *)
Definition incrementSuccessesForItem (f : fs_path) : M unit :=
  modify (fun s => with_successes (count_item (item_kind f (world s)) (successes s)) s).

(** [copying.failedItems.emplace_back(label, code)] *)
Definition record_failure (label : string) (ec : error_code) : M unit :=
  modify (fun s =>
    with_copying (with_failedItems (failedItems (copying s) ++ [(label, ec)]) (copying s)) s).

(** [fs::path::empty()] *)
Definition path_empty (p : fs_path) : bool :=
  match p with EmptyString => true | String _ _ => false end.

(** ** [copyItem] *)

(** The name under which a directory [f] is stored. *)
Definition directory_target (f : fs_path) : fs_path :=
  if path_empty (filename f) then filename (parent_path f) else filename f.

(** The lambda [actuallyCopyItem] of [copyItem]. *)
Definition actuallyCopyItem (f : fs_path) (use_regular_copy : bool) : M unit :=
  d <- query (EvIsDirectory f) (fs_is_directory f) ;;
  (if d then
     let target := directory_target f in
     dst <- gets (fun s => data (path s) // target) ;;
     effect (EvCreateDirectories dst) (fs_create_directories dst) ;;
     o <- gets (fun s => opts (copying s)) ;;
     effect (EvCopy f dst o) (fs_copy f dst o)
   else
     dst <- gets (fun s => data (path s) // filename f) ;;
     o <- gets (fun s => opts (copying s)) ;;
     let o' := if use_regular_copy then o else Z.lor o create_hard_links in
     effect (EvCopy f dst o') (fs_copy f dst o')) ;;
  incrementSuccessesForItem f ;;
  a <- gets action ;;
  match a with
  | Cut =>
      abs <- query (EvAbsolute f) (fs_absolute f) ;;
      originals <- gets (fun s => metadata_originals (path s)) ;;
      writeToFile originals (abs ++ String "010"%char EmptyString) true ;;
      ret tt
  | _ => ret tt
  end.

(** The [catch] block of [copyItem]. *)
Definition copyItem_catch (f : fs_path) (ec : error_code) : M unit :=
  u <- gets (fun s => use_safe_copy (copying s)) ;;
  if negb u && (ec =? cross_device_link)%Z then
    try_catch (actuallyCopyItem f true) (fun ec' => record_failure f ec')
  else
    record_failure f ec.

Definition copyItem (f : fs_path) : M unit :=
  try_catch
    (u <- gets (fun s => use_safe_copy (copying s)) ;;
     actuallyCopyItem f u)
    (copyItem_catch f).

Definition copy : M unit :=
  its <- gets (fun s => items (copying s)) ;;
  for_each its copyItem.

(** ** [paste] *)

(** The lambda [pasteItem] of [paste], for one [entry] and its [target].
    [&&] and [||] evaluate their right operand only when needed. *)
Definition pasteItem (entry target : fs_path) (use_regular_copy : bool) : M unit :=
  ex <- query (EvExists target) (fs_exists target) ;;
  same <- (if ex then query (EvEquivalent entry target) (fs_equivalent entry target)
           else ret false) ;;
  (if negb (ex && same) then
     regular <- (if use_regular_copy then ret true
                 else query (EvIsDirectory entry) (fs_is_directory entry)) ;;
     o <- gets (fun s => opts (copying s)) ;;
     let o' := if regular then o else Z.lor o create_hard_links in
     effect (EvCopy entry target o') (fs_copy entry target o')
   else ret tt) ;;
  incrementSuccessesForItem entry.

(** [pasteItem()] with its default argument, [copying.use_safe_copy]. *)
Definition pasteItem_default (entry target : fs_path) : M unit :=
  u <- gets (fun s => use_safe_copy (copying s)) ;;
  pasteItem entry target u.

Definition set_policy (p : CopyPolicy) : M unit :=
  modify (fun s => with_copying (with_policy p (copying s)) s).

(** The filter test of the loop: the entry is passed over when there are
    patterns and none of them matches its whole file name. *)
Definition filtered_out (regexes : list regex) (entry : fs_path) : bool :=
  negb (match regexes with [] => true | _ => false end)
  && negb (existsb (fun r => regex_match (filename entry) r) regexes).

(** The [try] block of the loop body. *)
Definition paste_try (entry target : fs_path) : M unit :=
  ex <- query (EvExists target) (fs_exists target) ;;
  if ex then
    p <- gets (fun s => policy (copying s)) ;;
    match p with
    | SkipAll => ret tt
    | ReplaceAll => pasteItem_default entry target
    | _ =>
        stopIndicator ;;
        d <- userDecision (filename entry) ;;
        set_policy d ;;
        startIndicator ;;
        p' <- gets (fun s => policy (copying s)) ;;
        match p' with
        | ReplaceOnce | ReplaceAll => pasteItem_default entry target
        | _ => ret tt
        end
    end
  else pasteItem_default entry target.

(** The [catch] block of the loop body. *)
Definition paste_catch (entry target : fs_path) (ec : error_code) : M unit :=
  u <- gets (fun s => use_safe_copy (copying s)) ;;
  if negb u then
    try_catch (pasteItem entry target true)
              (fun ec' => record_failure (filename entry) ec')
  else
    record_failure (filename entry) ec.

(** One iteration of the loop over the staging directory. *)
Definition paste_entry (regexes : list regex) (entry : fs_path) : M unit :=
  cwd <- query EvCurrentPath fs_current_path ;;
  let target := cwd // filename entry in
  if filtered_out regexes entry then ret tt
  else try_catch (paste_try entry target) (paste_catch entry target).

(** The loop of [paste], over the entries the directory iterator gave. *)
Definition paste_loop (regexes : list regex) (entries : list fs_path) : M unit :=
  for_each entries (paste_entry regexes).

(** [paste].  [removeOldFiles] is defined outside the sources and is a
    parameter. *)
Definition paste (removeOldFiles : M unit) : M unit :=
  its <- gets (fun s => items (copying s)) ;;
  regexes <- (match its with
              | [] => ret []
              | _ => compile_all its
              end) ;;
  d <- gets (fun s => data (path s)) ;;
  entries <- query (EvDirectoryIterator d) (fs_directory_iterator d) ;;
  paste_loop regexes entries ;;
  removeOldFiles.

(** ** [removeRegex] *)

(** [a - b] on [size_t]. *)
Definition size_t_sub (a b : nat) : N :=
  Z.to_N ((Z.of_nat a - Z.of_nat b) mod 2 ^ 64).

Definition add_bytes (n : N) : M unit :=
  modify (fun s =>
    let c := successes s in
    with_successes (mkSuccesses (files c) (directories c) (bytes c + n)) s).

(** The error message both branches print before [exit(EXIT_FAILURE)]. *)
Definition no_match_message : M unit := log EvNoMatchMessage.

(** The text branch: the clipboard holds a raw text file. *)
Definition removeRegex_text (regexes : list regex) : M unit :=
  raw <- gets (fun s => data_raw (path s)) ;;
  content <- fileContents raw ;;
  let oldLength := String.length content in
  let content' := fold_left (fun c pattern => regex_replace c pattern "") regexes content in
  add_bytes (size_t_sub oldLength (String.length content')) ;;
  if negb (oldLength =? String.length content')%nat then
    writeToFile raw content' false ;; ret tt
  else
    no_match_message ;; exit EXIT_FAILURE.

(** What is done to one staged entry for one pattern. *)
Definition remove_if_match (entry : fs_path) (pattern : regex) : M unit :=
  if regex_match (filename entry) pattern then
    try_catch
      (effect (EvRemoveAll entry) (fs_remove_all entry) ;;
       incrementSuccessesForItem entry)
      (fun ec => record_failure (filename entry) ec)
  else ret tt.

(** The file branch: the clipboard holds staged entries. *)
Definition removeRegex_files (regexes : list regex) : M unit :=
  d <- gets (fun s => data (path s)) ;;
  entries <- query (EvDirectoryIterator d) (fs_directory_iterator d) ;;
  for_each entries (fun entry => for_each regexes (remove_if_match entry)) ;;
  c <- gets successes ;;
  if (directories c =? 0)%N && (files c =? 0)%N then
    no_match_message ;; exit EXIT_FAILURE
  else ret tt.

(** The patterns of [removeRegex]: the piped-in text, or the items. *)
Definition removeRegex_patterns : M (list regex) :=
  io <- gets io_type ;;
  match io with
  | Pipe =>
      c <- pipedInContent ;;
      match regex_compile c with
      | Some r => ret [r]
      | None => throw regex_error
      end
  | _ =>
      its <- gets (fun s => items (copying s)) ;;
      compile_all its
  end.

Definition removeRegex : M unit :=
  regexes <- removeRegex_patterns ;;
  raw <- gets (fun s => data_raw (path s)) ;;
  text <- query (EvIsRegularFile raw) (fs_is_regular_file raw) ;;
  if text then removeRegex_text regexes else removeRegex_files regexes.

(** ** Reading a run *)

(** The calls of a trace that ask the user, copy, or change the file
    system. *)
Definition prompts (t : list Event) : list Event := filter is_user_decision t.
Definition copies (t : list Event) : list Event := filter is_copy t.
Definition writes (t : list Event) : list Event := filter is_write t.

(** [paste] visits [entry] when, having computed its target, it goes on
    to look whether the target exists. *)
Definition visited (regexes : list regex) (entry : fs_path) (s : State) : Prop :=
  exists cwd rest,
    fs_current_path (world s) = FsOk cwd /\
    trace (snd (paste_entry regexes entry s))
    = (trace s ++ EvCurrentPath :: EvExists (cwd // filename entry) :: rest)%list.

(** The number of [fs::remove_all] calls of the file branch of
    [removeRegex] that return, and the file system they leave. *)
Fixpoint removals_entry (entry : fs_path) (regexes : list regex) (w : World) : N * World :=
  match regexes with
  | [] => (0%N, w)
  | pattern :: rest =>
      if regex_match (filename entry) pattern then
        match fs_remove_all entry w with
        | (FsOk _, w') => let (n, w'') := removals_entry entry rest w' in ((1 + n)%N, w'')
        | (FsErr _, w') => removals_entry entry rest w'
        end
      else removals_entry entry rest w
  end.

Fixpoint removals (entries : list fs_path) (regexes : list regex) (w : World) : N * World :=
  match entries with
  | [] => (0%N, w)
  | entry :: rest =>
      let (n, w') := removals_entry entry regexes w in
      let (m, w'') := removals rest regexes w' in
      ((n + m)%N, w'')
  end.

End Handlers.

(** * A small executable platform

    A flat POSIX-like file system, a user who answers from a script, and
    regular expressions over literal characters, [.] and postfix [*].
    The handlers run on it by computation; it instantiates the general
    statements below at concrete inputs. *)
Module Posix.

Open Scope char_scope.

Definition is_slash (c : ascii) : bool := Ascii.eqb c "/".

Fixpoint has_slash (p : string) : bool :=
  match p with
  | EmptyString => false
  | String c r => is_slash c || has_slash r
  end.

(** What follows the last separator. *)
Fixpoint p_filename (p : string) : string :=
  match p with
  | EmptyString => EmptyString
  | String c r => if has_slash r then p_filename r else if is_slash c then r else p
  end.

Fixpoint drop_slashes (l : list ascii) : list ascii :=
  match l with
  | c :: l' => if is_slash c then drop_slashes l' else l
  | [] => []
  end.

(** The path without its last component and the separators before it;
    the root directory is its own parent. *)
Definition p_parent_path (p : string) : string :=
  let stem := firstn (String.length p - String.length (p_filename p)) (list_ascii_of_string p) in
  match rev (drop_slashes (rev stem)) with
  | [] => match stem with [] => EmptyString | _ => String "/" EmptyString end
  | l => string_of_list_ascii l
  end.

Definition ends_with_slash (p : string) : bool :=
  match rev (list_ascii_of_string p) with
  | c :: _ => is_slash c
  | [] => false
  end.

Definition p_append (a b : string) : string :=
  match b with
  | String c _ =>
      if is_slash c then b
      else match a with
           | EmptyString => b
           | _ => if ends_with_slash a then (a ++ b)%string
                  else (a ++ String "/" b)%string
           end
  | EmptyString =>
      match a with
      | EmptyString => EmptyString
      | _ => if ends_with_slash a then a else (a ++ String "/" EmptyString)%string
      end
  end.

(** ** Regular expressions *)

Inductive Atom := AnyChar | Lit (c : ascii).

(** A sequence of atoms, each possibly starred. *)
Definition Rx := list (Atom * bool).

Definition is_meta (c : ascii) : bool :=
  existsb (Ascii.eqb c) ["*"; "+"; "?"; "("; ")"; "["; "]"; "{"; "}"; "|"; "^"; "$"; "\"].

Fixpoint rx_parse (l : list ascii) : option Rx :=
  match l with
  | [] => Some []
  | c :: l' =>
      if is_meta c then None
      else
        let a := if Ascii.eqb c "." then AnyChar else Lit c in
        match l' with
        | c' :: l'' =>
            if Ascii.eqb c' "*" then option_map (cons (a, true)) (rx_parse l'')
            else option_map (cons (a, false)) (rx_parse l')
        | [] => Some [(a, false)]
        end
  end.

Definition atom_ok (a : Atom) (c : ascii) : bool :=
  match a with
  | AnyChar => true
  | Lit c' => Ascii.eqb c c'
  end.

(** Does the whole of [s] match [r]? *)
Fixpoint rx_match (r : Rx) : list ascii -> bool :=
  match r with
  | [] => fun s => match s with [] => true | _ => false end
  | (a, false) :: r' =>
      fun s => match s with
               | c :: s' => atom_ok a c && rx_match r' s'
               | [] => false
               end
  | (a, true) :: r' =>
      fix star (s : list ascii) : bool :=
        rx_match r' s
        || match s with
           | c :: s' => atom_ok a c && star s'
           | [] => false
           end
  end.

(** The longest non-empty prefix of [s], of length at most [n], that
    matches. *)
Fixpoint longest_prefix (r : Rx) (s : list ascii) (n : nat) : option nat :=
  match n with
  | O => None
  | S n' => if rx_match r (firstn n s) then Some n else longest_prefix r s n'
  end.

Fixpoint rx_replace (fuel : nat) (r : Rx) (fmt s : list ascii) : list ascii :=
  match fuel, s with
  | S fuel', c :: s' =>
      match longest_prefix r s (length s) with
      | Some k => fmt ++ rx_replace fuel' r fmt (skipn k s)
      | None => c :: rx_replace fuel' r fmt s'
      end
  | _, _ => s
  end.

Close Scope char_scope.

(** ** The file system *)

Record Node := mkNode {
  node_kind : ItemKind;
  node_id : nat;
  node_content : string
}.

Record TestWorld := mkTestWorld {
  nodes : list (fs_path * Node);
  cwd : fs_path;
  answers : list CopyPolicy;
  stdin : string;
  link_error : option error_code;
  copy_error : option error_code;
  next_id : nat
}.

Definition with_nodes (l : list (fs_path * Node)) (n : nat) (w : TestWorld) : TestWorld :=
  mkTestWorld l (cwd w) (answers w) (stdin w) (link_error w) (copy_error w) n.

(** A name with its trailing separators removed; the root stays. *)
Definition strip (p : fs_path) : fs_path :=
  match rev (drop_slashes (rev (list_ascii_of_string p))) with
  | [] => match p with EmptyString => EmptyString | _ => String "/"%char EmptyString end
  | l => string_of_list_ascii l
  end.

Fixpoint find_node (p : fs_path) (l : list (fs_path * Node)) : option Node :=
  match l with
  | [] => None
  | (q, n) :: l' => if String.eqb p q then Some n else find_node p l'
  end.

Definition lookup (p : fs_path) (l : list (fs_path * Node)) : option Node :=
  find_node (strip p) l.

Definition remove (p : fs_path) (l : list (fs_path * Node)) : list (fs_path * Node) :=
  filter (fun e => negb (String.eqb (strip p) (fst e))) l.

Definition is_dir_node (o : option Node) : bool :=
  match o with
  | Some (mkNode IsDirectory _ _) => true
  | _ => false
  end.

Definition is_file_node (o : option Node) : bool :=
  match o with
  | Some (mkNode IsFile _ _) => true
  | _ => false
  end.

Definition exists_ (p : fs_path) (w : TestWorld) : fs_result bool :=
  FsOk (match lookup p (nodes w) with Some _ => true | None => false end).

Definition equivalent (a b : fs_path) (w : TestWorld) : fs_result bool :=
  match lookup a (nodes w), lookup b (nodes w) with
  | Some x, Some y => FsOk (Nat.eqb (node_id x) (node_id y))
  | None, None => FsErr no_such_file_or_directory
  | _, _ => FsOk false
  end.

Definition absolute (p : fs_path) (w : TestWorld) : fs_result fs_path :=
  FsOk (p_append (cwd w) p).

Definition directory_iterator (d : fs_path) (w : TestWorld) : fs_result (list fs_path) :=
  match lookup d (nodes w) with
  | Some (mkNode IsDirectory _ _) =>
      FsOk (map fst (filter (fun e => String.eqb (p_parent_path (fst e)) d
                                      && negb (String.eqb (fst e) d)) (nodes w)))
  | _ => FsErr no_such_file_or_directory
  end.

Definition create_directories (p : fs_path) (w : TestWorld) : fs_result bool * TestWorld :=
  match lookup p (nodes w) with
  | Some _ => (FsOk false, w)
  | None => (FsOk true,
             with_nodes ((strip p, mkNode IsDirectory (next_id w) EmptyString) :: nodes w)
                        (S (next_id w)) w)
  end.

(** A copy with [create_hard_links] makes the target a second name of
    the source; any other copy makes a new node. *)
Definition copy (from to : fs_path) (o : copy_options) (w : TestWorld)
  : fs_result unit * TestWorld :=
  match lookup from (nodes w) with
  | None => (FsErr no_such_file_or_directory, w)
  | Some n =>
      if Z.testbit o 8 then
        match link_error w with
        | Some ec => (FsErr ec, w)
        | None => (FsOk tt, with_nodes ((strip to, n) :: remove to (nodes w)) (next_id w) w)
        end
      else
        match copy_error w with
        | Some ec => (FsErr ec, w)
        | None =>
            (FsOk tt,
             with_nodes ((strip to, mkNode (node_kind n) (next_id w) (node_content n))
                           :: remove to (nodes w))
                        (S (next_id w)) w)
        end
  end.

Definition remove_all (p : fs_path) (w : TestWorld) : fs_result N * TestWorld :=
  match lookup p (nodes w) with
  | None => (FsOk 0%N, w)
  | Some _ => (FsOk 1%N, with_nodes (remove p (nodes w)) (next_id w) w)
  end.

Definition kind_of (p : fs_path) (w : TestWorld) : ItemKind :=
  if is_dir_node (lookup p (nodes w)) then IsDirectory else IsFile.

Definition answer (name : string) (w : TestWorld) : CopyPolicy * TestWorld :=
  match answers w with
  | a :: rest =>
      (a, mkTestWorld (nodes w) (cwd w) rest (stdin w) (link_error w) (copy_error w) (next_id w))
  | [] => (SkipOnce, w)
  end.

Definition write (p : fs_path) (content : string) (append : bool) (w : TestWorld)
  : N * TestWorld :=
  let old := match lookup p (nodes w) with
             | Some n => if append then node_content n else EmptyString
             | None => EmptyString
             end in
  (N.of_nat (String.length content),
   with_nodes ((strip p, mkNode IsFile (next_id w) (old ++ content)) :: remove p (nodes w))
              (S (next_id w)) w).

Definition contents (p : fs_path) (w : TestWorld) : string :=
  match lookup p (nodes w) with
  | Some n => node_content n
  | None => EmptyString
  end.

Definition piped (w : TestWorld) : string * TestWorld :=
  (stdin w,
   mkTestWorld (nodes w) (cwd w) (answers w) EmptyString (link_error w) (copy_error w) (next_id w)).

#[export] Instance platform : Platform := {|
  World := TestWorld;
  filename := p_filename;
  parent_path := p_parent_path;
  path_append := p_append;
  fs_exists := exists_;
  fs_equivalent := equivalent;
  fs_is_directory := fun p w => FsOk (is_dir_node (lookup p (nodes w)));
  fs_is_regular_file := fun p w => FsOk (is_file_node (lookup p (nodes w)));
  fs_current_path := fun w => FsOk (cwd w);
  fs_absolute := absolute;
  fs_directory_iterator := directory_iterator;
  fs_create_directories := create_directories;
  fs_copy := copy;
  fs_remove_all := remove_all;
  regex := Rx;
  regex_compile := fun s => rx_parse (list_ascii_of_string s);
  regex_match := fun s r => rx_match r (list_ascii_of_string s);
  regex_replace := fun s r fmt =>
    string_of_list_ascii
      (rx_replace (String.length s) r (list_ascii_of_string fmt) (list_ascii_of_string s));
  item_kind := kind_of;
  user_decision := answer;
  write_file := write;
  file_contents := contents;
  piped_in_content := piped
|}.

End Posix.

(** ** Sample runs *)
Module Scenario.
Import Posix.

Definition file (id : nat) (content : string) : Node := mkNode IsFile id content.
Definition dir (id : nat) : Node := mkNode IsDirectory id "".

(** The clipboard [/clip]. *)
Definition clip : Clipboard :=
  mkClipboard "/clip" "/clip/rawdata.clipboard" "/clip.originals".

(** Two staged files.  The working directory [/home] already has both
    names: [apple.txt] is a hard link to the staged file, [banana.txt]
    is another file. *)
Definition staged : list (fs_path * Node) :=
  [("/clip", dir 1); ("/clip/apple.txt", file 2 "A"); ("/clip/banana.txt", file 3 "B");
   ("/home", dir 4); ("/home/apple.txt", file 2 "A"); ("/home/banana.txt", file 7 "old")].

(** The same staged files and an empty working directory. *)
Definition fresh : list (fs_path * Node) :=
  [("/clip", dir 1); ("/clip/apple.txt", file 2 "A"); ("/clip/banana.txt", file 3 "B");
   ("/home", dir 4)].

(** Sources to copy from: a file and a directory. *)
Definition sources : list (fs_path * Node) :=
  [("/clip", dir 1); ("/src", dir 2); ("/src/a.txt", file 3 "A"); ("/src/dir", dir 4)].

(** A clipboard that holds text. *)
Definition text : list (fs_path * Node) :=
  [("/clip", dir 1); ("/clip/rawdata.clipboard", file 2 "hello")].

Definition world_of (l : list (fs_path * Node)) (answers : list CopyPolicy)
    (link_error copy_error : option error_code) : TestWorld :=
  mkTestWorld l "/home" answers "" link_error copy_error 10.

Definition state_of (its : list fs_path) (safe : bool) (p : CopyPolicy) (a : Action)
    (io : IOType) (w : TestWorld) : State :=
  mkState (mkCopying its safe 0%Z p [] "") (mkSuccesses 0 0 0) a io clip w [].

(** Pasting everything, nothing in the way of the file system. *)
Definition pasting (p : CopyPolicy) (l : list (fs_path * Node))
    (answers : list CopyPolicy) : State :=
  state_of [] false p Paste File (world_of l answers None None).


(** Copying a file there. *)
Definition copying_without_links : State :=
  state_of ["/src/a.txt"] false Unknown Copy File
    (world_of sources [] (Some operation_not_permitted) None).

(** Copying from another device: hard links fail with
    [cross_device_link]; full copies fail as [copy_error] says. *)
Definition copying_across (copy_error : option error_code) : State :=
  state_of ["/src/a.txt"] false Unknown Copy File
    (world_of sources [] (Some cross_device_link) copy_error).

(** The pattern [a.*]. *)
Definition a_star : Rx := [(Lit "a"%char, false); (AnyChar, true)].

(** Pasting with filter patterns. *)
Definition pasting_filtered (its : list fs_path) : State :=
  state_of its false Unknown Paste File (world_of fresh [] None None).

(** Removing by pattern, from text and from staged files. *)
Definition removing (its : list fs_path) (l : list (fs_path * Node)) : State :=
  state_of its false Unknown OtherAction Text (world_of l [] None None).

End Scenario.

(** * Vocabulary of the statements *)

Section Vocabulary.
Context {P : Platform}.
Open Scope path_scope.
Open Scope list_scope.

(** A relation between the state before and after a run that composes
    along the run. *)
Class Frame (R : State -> State -> Prop) : Prop := {
  frame_refl : forall s, R s s;
  frame_trans : forall a b c, R a b -> R b c -> R a c
}.

(** [m] respects [R] from every state, however it ends. *)
Definition stable (R : State -> State -> Prop) {A} (m : M A) : Prop :=
  forall s, R s (snd (m s)).

(** The trace only grows. *)
Definition grows (s s' : State) : Prop := exists rest, trace s' = trace s ++ rest.

(** Nothing is asked and the policy is not touched. *)
Definition quiet (s s' : State) : Prop :=
  policy (copying s') = policy (copying s) /\
  prompts (trace s') = prompts (trace s).

(** The globals [copying], [path] and [action] are not touched. *)
Definition settled (s s' : State) : Prop :=
  copying s' = copying s /\ path s' = path s /\ action s' = action s.

(** The policies that hold for the rest of a batch. *)
Definition sticky (p : CopyPolicy) : bool :=
  match p with
  | SkipAll | ReplaceAll => true
  | _ => false
  end.

(** What is left of the loop body of [paste] once the user has answered
    [d], and the state in which it runs. *)
Definition after_answer (entry target : fs_path) (d : CopyPolicy) : M unit :=
  try_catch
    (match d with
     | ReplaceOnce | ReplaceAll => pasteItem_default entry target
     | _ => ret tt
     end)
    (paste_catch entry target).

Definition asked (entry target : fs_path) (s : State) : State :=
  let (d, w') := user_decision (filename entry) (world s) in
  with_copying (with_policy d (copying s))
    (with_world w'
       (with_trace (trace s ++ [EvCurrentPath; EvExists target; EvStopIndicator;
                                EvUserDecision (filename entry); EvStartIndicator]) s)).

(** Files and directories counted so far. *)
Definition total (c : Successes) : N := (files c + directories c)%N.

End Vocabulary.

(** * Further vocabulary *)

Section Accounting.
Context {P : Platform}.
Open Scope path_scope.
Open Scope list_scope.

(** The outcomes recorded so far: items counted as files or directories,
    and recorded failures. *)
Definition outcomes (s : State) : N :=
  (total (successes s) + N.of_nat (length (failedItems (copying s))))%N.

(** No counter goes down, and the failures already recorded stay, in
    place, at the head of the list. *)
Definition additive (s s' : State) : Prop :=
  (files (successes s) <= files (successes s'))%N /\
  (directories (successes s) <= directories (successes s'))%N /\
  (bytes (successes s) <= bytes (successes s'))%N /\
  exists new, failedItems (copying s') = failedItems (copying s) ++ new.

(** A copy request that carries exactly the options [o]. *)
Definition copy_with (o : copy_options) (e : Event) : Prop :=
  exists from to, e = EvCopy from to o.

(** When safe copies are configured, they stay configured, the options
    stay what they are, and every copy requested carries exactly those
    options. *)
Definition plain_copies (s s' : State) : Prop :=
  use_safe_copy (copying s) = true ->
  use_safe_copy (copying s') = true /\
  opts (copying s') = opts (copying s) /\
  exists cs,
    copies (trace s') = copies (trace s) ++ cs /\
    Forall (copy_with (opts (copying s))) cs.

(** The options [pasteItem()] passes to [fs::copy] for [entry]: the
    configured ones for a safe copy or a directory, and those with
    [create_hard_links] otherwise; finding out whether [entry] is a
    directory may throw. *)
Definition paste_options (entry : fs_path) (s : State) : fs_result copy_options :=
  if use_safe_copy (copying s) then FsOk (opts (copying s))
  else
    match fs_is_directory entry (world s) with
    | FsOk true => FsOk (opts (copying s))
    | FsOk false => FsOk (Z.lor (opts (copying s)) create_hard_links)
    | FsErr ec => FsErr ec
    end.

(** The calls [pasteItem()] makes before it copies to a target that does
    not exist. *)
Definition paste_probe (entry target : fs_path) (s : State) : list Event :=
  if use_safe_copy (copying s) then [EvExists target]
  else [EvExists target; EvIsDirectory entry].

(** The number of pairs of an entry and a pattern that matches its whole
    file name. *)
Definition matching_patterns (entry : fs_path) (regexes : list regex) : nat :=
  length (filter (fun r => regex_match (filename entry) r) regexes).

Fixpoint matching_pairs (entries : list fs_path) (regexes : list regex) : nat :=
  match entries with
  | [] => 0
  | entry :: rest => matching_patterns entry regexes + matching_pairs rest regexes
  end.

(** Nothing but the record of the calls has changed, and those calls
    neither changed the file system nor asked the user. *)
Definition untouched (s s' : State) : Prop :=
  world s' = world s /\
  copying s' = copying s /\
  successes s' = successes s /\
  writes (trace s') = writes (trace s) /\
  prompts (trace s') = prompts (trace s).

(** The entries the loop of [paste] passes over: those the filter
    rejects and, under [SkipAll], those whose target exists. *)
Definition passed_over (regexes : list regex) (cwd : fs_path) (s : State)
    (entry : fs_path) : Prop :=
  filtered_out regexes entry = true \/
  (policy (copying s) = SkipAll /\
   fs_exists (cwd // filename entry) (world s) = FsOk true).

End Accounting.

(** * [addFiles] and [load]

    These two handlers need a little more of the outside: the error
    stream, the names of the clipboards, and the constructor of
    [Clipboard].  The calls below have no constructor in [Event]: they
    act on the [World] and leave no record in the trace. *)

(** [stderr], and [replaceColors] of clipboard.hpp. *)
Class Console {P : Platform} := {
  replaceColors : string -> string;
  (* fprintf(stderr, "%s", text) *)
  fputs_stderr : string -> World -> World;
  (* fprintf(stderr, format, n), the format holding one %i *)
  fprintf_stderr_count : string -> nat -> World -> World
}.

(** The clipboards: the global [clipboard_name],
    [constants.default_clipboard_name], the constructor
    [Clipboard(name)], which may touch the file system and may throw,
    [fs::is_empty] and [updateGUIClipboard]. *)
Class Clipboards {P : Platform} := {
  clipboard_name : string;
  default_clipboard_name : string;
  open_clipboard : string -> World -> fs_result Clipboard * World;
  fs_is_empty : fs_path -> World -> fs_result bool;
  update_gui_clipboard : bool -> World -> World
}.

(** [fs::copy_options::recursive], with the value libstdc++ gives it. *)
Definition recursive : copy_options := 8%Z.

Section MoreHandlers.
Context {P : Platform} {C : Console} {B : Clipboards}.
Open Scope path_scope.
Open Scope list_scope.

(** A call that only inspects the world, one that may change it, and one
    that changes it and cannot fail. *)
Definition ask {A} (q : World -> fs_result A) : M A :=
  fun s =>
    match q (world s) with
    | FsOk a => (Ret a, s)
    | FsErr ec => (Throw (filesystem_error ec), s)
    end.

Definition act {A} (f : World -> fs_result A * World) : M A :=
  fun s =>
    let (r, w') := f (world s) in
    match r with
    | FsOk a => (Ret a, with_world w' s)
    | FsErr ec => (Throw (filesystem_error ec), with_world w' s)
    end.

Definition tell (f : World -> World) : M unit :=
  modify (fun s => with_world (f (world s)) s).

(** ** [addFiles] *)

Definition add_items_to_text_message : string :=
  "[error]❌ You can't add items to text. [blank][help]Try copying text first, or add text instead.[blank]" ++ String "010"%char EmptyString.

Definition addFiles : M unit :=
  raw <- gets (fun s => data_raw (path s)) ;;
  text <- query (EvIsRegularFile raw) (fs_is_regular_file raw) ;;
  (if text then
     tell (fputs_stderr (replaceColors add_items_to_text_message)) ;;
     exit EXIT_FAILURE
   else ret tt) ;;
  its <- gets (fun s => items (copying s)) ;;
  for_each its copyItem.

(** ** [load] *)

Definition load_from_empty_message : string :=
  "[error]❌ The clipboard you're trying to load from is empty. [help]Try choosing a different source instead.[blank]" ++ String "010"%char EmptyString.

Definition load_into_itself_message : string :=
  "[error]❌ You can't load a clipboard into itself. [help]Try choosing a different source instead, or choose different destinations.[blank]" ++ String "010"%char EmptyString.

Definition loaded_message : string :=
  "[success]✅ Loaded %i clipboards[blank]" ++ String "010"%char EmptyString.

(** The destinations: the items, or the default clipboard when there are
    none. *)
Definition load_destinations (its : list fs_path) : list string :=
  match its with
  | [] => [default_clipboard_name]
  | _ => its
  end.

(** [std::find(destinations.begin(), destinations.end(), name) != end] *)
Definition among (name : string) (destinations : list string) : bool :=
  existsb (String.eqb name) destinations.

(** The body of the loop over the destinations. *)
Definition load_into (destination_number : string) : M unit :=
  destination <- act (open_clipboard destination_number) ;;
  try_catch
    (entries <- query (EvDirectoryIterator (data destination))
                  (fs_directory_iterator (data destination)) ;;
     for_each entries (fun entry => effect (EvRemoveAll entry) (fs_remove_all entry) ;; ret tt) ;;
     src <- gets (fun s => data (path s)) ;;
     effect (EvCopy src (data destination) recursive)
            (fs_copy src (data destination) recursive))
    (fun ec => record_failure destination_number ec).

Definition load : M unit :=
  d <- gets (fun s => data (path s)) ;;
  ex <- query (EvExists d) (fs_exists d) ;;
  empty <- (if ex then ask (fs_is_empty d) else ret true) ;;
  (if negb ex || empty then
     tell (fputs_stderr (replaceColors load_from_empty_message)) ;;
     exit EXIT_FAILURE
   else ret tt) ;;
  its <- gets (fun s => items (copying s)) ;;
  let destinations := load_destinations its in
  (if among clipboard_name destinations then
     stopIndicator ;;
     tell (fputs_stderr (replaceColors load_into_itself_message)) ;;
     exit EXIT_FAILURE
   else ret tt) ;;
  for_each destinations load_into ;;
  stopIndicator ;;
  tell (fprintf_stderr_count (replaceColors loaded_message) (length destinations)) ;;
  if among default_clipboard_name destinations then tell (update_gui_clipboard true)
  else ret tt.

(** Nothing is counted, and [copying] and [path] are not touched. *)
Definition counts_nothing (s s' : State) : Prop :=
  successes s' = successes s /\ copying s' = copying s /\ path s' = path s.

(** [load] refused: it left through [exit] after printing [message],
    and did nothing else after the calls recorded in [asked_first]. *)
Definition refused (message : string) (asked_first : list Event)
    (s : State) (r : Outcome unit * State) : Prop :=
  fst r = Exit EXIT_FAILURE /\
  world (snd r) = fputs_stderr (replaceColors message) (world s) /\
  trace (snd r) = trace s ++ asked_first /\
  copying (snd r) = copying s /\
  successes (snd r) = successes s.

End MoreHandlers.

(** The console and the clipboards of the sample runs: nothing is shown,
    the current clipboard is [0], and every clipboard [n] lives in
    [/clips/n]. *)
Module Desk.

#[local] Existing Instance Posix.platform.

#[export] Instance console : @Console Posix.platform := {|
  replaceColors := fun text => text;
  fputs_stderr := fun _ w => w;
  fprintf_stderr_count := fun _ _ w => w
|}.

Definition clipboard_of (name : string) : Clipboard :=
  mkClipboard ("/clips/" ++ name) ("/clips/" ++ name ++ "/rawdata.clipboard")
    ("/clips/" ++ name ++ ".originals").

#[export] Instance clipboards : @Clipboards Posix.platform := {|
  clipboard_name := "0";
  default_clipboard_name := "0";
  open_clipboard := fun name w =>
    let (_, w') := Posix.create_directories (data (clipboard_of name)) w in
    (FsOk (clipboard_of name), w');
  fs_is_empty := fun p w =>
    match Posix.directory_iterator p w with
    | FsOk l => FsOk (match l with [] => true | _ => false end)
    | FsErr ec => FsErr ec
    end;
  update_gui_clipboard := fun _ w => w
|}.

End Desk.

(** Sample runs of [addFiles] and [load]. *)
Module Scenario2.
Import Scenario.

(** Adding a file to the text clipboard, and to a clipboard of files. *)
Definition adding (l : list (fs_path * Posix.Node)) : State :=
  state_of ["/src/a.txt"] false Unknown OtherAction File
    (world_of (l ++ [("/src", dir 20); ("/src/a.txt", file 21 "A")]) [] None None).

(** Loading the clipboard [/clip] into the clipboards named by [its]. *)
Definition loading (its : list fs_path) (l : list (fs_path * Posix.Node)) : State :=
  state_of its false Unknown OtherAction File (world_of l [] None None).

(** A clipboard directory with nothing in it, and no clipboard at all. *)
Definition empty_clip : list (fs_path * Posix.Node) := [("/clip", dir 1)].
Definition no_clip : list (fs_path * Posix.Node) := [("/home", dir 4)].

(** Copying two items, the second of which does not exist. *)
Definition copying_two : State :=
  state_of ["/src/a.txt"; "/nowhere.txt"] false Unknown Copy File
    (world_of sources [] None None).

(** Copying with safe copies configured. *)
Definition copying_safely : State :=
  state_of ["/src/a.txt"; "/src/dir"] true Unknown Copy File
    (world_of sources [] None None).

(** Pasting with safe copies configured. *)
Definition pasting_safely : State :=
  state_of [] true ReplaceAll Paste File (world_of staged [] None None).

(** Pasting on a file system on which every copy fails: hard links with
    [operation_not_permitted], full copies with [permission_denied]. *)
Definition pasting_in_vain : State :=
  state_of [] false Unknown Paste File
    (world_of fresh [] (Some operation_not_permitted) (Some permission_denied)).

(** A staged directory. *)
Definition staged_directory : list (fs_path * Posix.Node) :=
  [("/clip", dir 1); ("/clip/photos", dir 2); ("/home", dir 4)].

(** Removing by a pattern that arrives on the pipe. *)
Definition removing_piped (pattern : string) : State :=
  state_of [] false Unknown OtherAction Pipe
    (Posix.mkTestWorld fresh "/home" [] pattern None None 10).

End Scenario2.

(** The sample platform after its working directory was deleted:
    [fs::current_path] and [fs::absolute] throw. *)
Module Lost.
Import Posix.

Definition gone {A} : TestWorld -> fs_result A :=
  fun _ => FsErr no_such_file_or_directory.

Definition platform : Platform := {|
  World := TestWorld;
  filename := p_filename;
  parent_path := p_parent_path;
  path_append := p_append;
  fs_exists := exists_;
  fs_equivalent := equivalent;
  fs_is_directory := fun p w => FsOk (is_dir_node (lookup p (nodes w)));
  fs_is_regular_file := fun p w => FsOk (is_file_node (lookup p (nodes w)));
  fs_current_path := gone;
  fs_absolute := fun _ => gone;
  fs_directory_iterator := directory_iterator;
  fs_create_directories := create_directories;
  fs_copy := copy;
  fs_remove_all := remove_all;
  regex := Rx;
  regex_compile := fun s => rx_parse (list_ascii_of_string s);
  regex_match := fun s r => rx_match r (list_ascii_of_string s);
  regex_replace := fun s r fmt =>
    string_of_list_ascii
      (rx_replace (String.length s) r (list_ascii_of_string fmt) (list_ascii_of_string s));
  item_kind := kind_of;
  user_decision := answer;
  write_file := write;
  file_contents := contents;
  piped_in_content := piped
|}.

Definition state_of (its : list fs_path) (safe : bool) (p : CopyPolicy) (a : Action)
    (io : IOType) (l : list (fs_path * Node)) : @State platform :=
  @mkState platform (mkCopying its safe 0%Z p [] "") (mkSuccesses 0 0 0) a io
    Scenario.clip (mkTestWorld l "/home" [] "" None None 10) [].

End Lost.

(** * Properties *)

(** ** Relations that every step of a handler respects *)

Section Frames.
Context {P : Platform}.
Context (R : State -> State -> Prop) `{!Frame R}.

Lemma stable_ret {A} (a : A) : stable R (ret a).
Proof. intros s. apply frame_refl. Qed.

Lemma stable_throw {A} (e : exn) : stable R (@throw _ A e).
Proof. intros s. apply frame_refl. Qed.

Lemma stable_exit {A} (n : Z) : stable R (@exit _ A n).
Proof. intros s. apply frame_refl. Qed.

Lemma stable_gets {A} (f : State -> A) : stable R (gets f).
Proof. intros s. apply frame_refl. Qed.

Lemma stable_bind {A B} (m : M A) (k : A -> M B) :
  stable R m -> (forall a, stable R (k a)) -> stable R (bind m k).
Proof.
  intros Hm Hk s. unfold bind. specialize (Hm s).
  destruct (m s) as [[a | e | n] s1]; cbn in *; trivial.
  eapply frame_trans; [exact Hm | apply Hk].
Qed.

Lemma stable_try_catch {A} (m : M A) (h : error_code -> M A) :
  stable R m -> (forall ec, stable R (h ec)) -> stable R (try_catch m h).
Proof.
  intros Hm Hh s. unfold try_catch. specialize (Hm s).
  destruct (m s) as [[a | [ec | ] | n] s1]; cbn in *; trivial.
  eapply frame_trans; [exact Hm | apply Hh].
Qed.

Lemma stable_for_each {A} (l : list A) (body : A -> M unit) :
  (forall x, stable R (body x)) -> stable R (for_each l body).
Proof.
  intros Hb. induction l as [| x l IH]; cbn.
  - apply stable_ret.
  - apply stable_bind; auto.
Qed.

End Frames.

(** Splits a handler into its calls; what is left are the calls that
    leave the translation unit and the updates of the globals. *)
Ltac stable_step :=
  lazymatch goal with
  | |- stable _ (bind _ _) => apply stable_bind; [ exact _ | | intros ]
  | |- stable _ (try_catch _ _) => apply stable_try_catch; [ exact _ | | intros ]
  | |- stable _ (for_each _ _) => apply stable_for_each; [ exact _ | intros ]
  | |- stable _ (ret _) => apply stable_ret; exact _
  | |- stable _ (throw _) => apply stable_throw; exact _
  | |- stable _ (exit _) => apply stable_exit; exact _
  | |- stable _ (gets _) => apply stable_gets; exact _
  | |- stable _ (if ?b then _ else _) => destruct b
  | |- stable _ (match ?x with _ => _ end) => destruct x
  | |- stable _ (let _ := _ in _) => cbv zeta
  end.

(** Settles a call or an update by running it. *)
Ltac stable_call :=
  let s := fresh "s" in
  intros s;
  unfold query, effect, log, modify, userDecision, writeToFile, fileContents,
    pipedInContent, incrementSuccessesForItem, record_failure, set_policy,
    add_bytes, no_match_message, stopIndicator, startIndicator,
    with_copying, with_successes, with_world, with_trace;
  repeat match goal with
         | |- context [match ?x with _ => _ end] => destruct x
         end;
  cbn.

(** Symbolic execution of a handler up to the next call whose result is
    not known. *)
Ltac run :=
  cbv beta delta [paste_entry paste_try paste_catch pasteItem_default pasteItem
                  copyItem copyItem_catch actuallyCopyItem
                  removeRegex_text removeRegex_files remove_if_match
                  try_catch bind ret gets modify query effect log throw exit
                  stopIndicator startIndicator set_policy userDecision
                  writeToFile fileContents pipedInContent add_bytes no_match_message
                  incrementSuccessesForItem record_failure
                  with_copying with_successes with_world with_trace
                  with_policy with_failedItems];
  cbn [copying successes action io_type path world trace
       items use_safe_copy opts policy failedItems buffer fst snd].

(** The loop body of [paste] up to the calls of [pasteItem], which stay
    folded. *)
Ltac run_outer :=
  cbv beta delta [paste_entry paste_try try_catch bind ret gets modify query log
                  stopIndicator startIndicator set_policy userDecision
                  with_copying with_world with_trace with_policy];
  cbn [copying successes action io_type path world trace
       items use_safe_copy opts policy failedItems buffer fst snd].

(** Runs what is left of a handler by cases on every call result,
    innermost call first. *)
Ltac case_call :=
  match goal with
  | |- context [match ?x with _ => _ end] =>
      lazymatch x with
      | context [match _ with _ => _ end] => fail
      | _ => destruct x eqn:?
      end
  end.

Ltac run_all := repeat (run; case_call); run.

Section Properties.
Context {P : Platform}.
Open Scope path_scope.
Open Scope list_scope.

Lemma copies_app a b : copies (a ++ b) = copies a ++ copies b.
Proof. apply filter_app. Qed.

Lemma writes_app a b : writes (a ++ b) = writes a ++ writes b.
Proof. apply filter_app. Qed.

Lemma prompts_app a b : prompts (a ++ b) = prompts a ++ prompts b.
Proof. apply filter_app. Qed.

(** *** The trace only grows *)

#[local] Instance grows_frame : Frame grows.
Proof.
  split.
  - intros s. exists []. now rewrite app_nil_r.
  - intros a b c [r1 H1] [r2 H2]. exists (r1 ++ r2). now rewrite H2, H1, app_assoc.
Qed.

Ltac grows_call :=
  stable_call; solve [eexists; reflexivity | exists []; symmetry; apply app_nil_r].

Lemma grows_pasteItem entry target u : stable grows (pasteItem entry target u).
Proof. unfold pasteItem. repeat stable_step; grows_call. Qed.

Lemma grows_record_failure label ec : stable grows (record_failure label ec).
Proof. grows_call. Qed.

Lemma grows_paste_catch entry target ec : stable grows (paste_catch entry target ec).
Proof.
  unfold paste_catch. repeat stable_step;
    auto using grows_pasteItem, grows_record_failure.
Qed.

Lemma grows_pasteItem_default entry target : stable grows (pasteItem_default entry target).
Proof. unfold pasteItem_default. repeat stable_step. apply grows_pasteItem. Qed.

Lemma grows_after_answer entry target d : stable grows (after_answer entry target d).
Proof.
  unfold after_answer.
  repeat stable_step; auto using grows_pasteItem_default, grows_paste_catch.
Qed.

Lemma grows_actuallyCopyItem f u : stable grows (actuallyCopyItem f u).
Proof. unfold actuallyCopyItem. repeat stable_step; grows_call. Qed.

(** *** Nothing is asked *)

#[local] Instance quiet_frame : Frame quiet.
Proof.
  split.
  - intros s. split; reflexivity.
  - intros a b c [H1 H2] [H3 H4]. split; congruence.
Qed.

Ltac quiet_call :=
  stable_call;
  (split;
   [ reflexivity
   | cbn; unfold prompts; rewrite ?filter_app; cbn; rewrite ?app_nil_r; reflexivity ]).

Lemma quiet_pasteItem entry target u : stable quiet (pasteItem entry target u).
Proof. unfold pasteItem. repeat stable_step; quiet_call. Qed.

Lemma quiet_record_failure label ec : stable quiet (record_failure label ec).
Proof. quiet_call. Qed.

Lemma quiet_paste_catch entry target ec : stable quiet (paste_catch entry target ec).
Proof.
  unfold paste_catch. repeat stable_step;
    auto using quiet_pasteItem, quiet_record_failure.
Qed.

Lemma quiet_pasteItem_default entry target : stable quiet (pasteItem_default entry target).
Proof. unfold pasteItem_default. repeat stable_step. apply quiet_pasteItem. Qed.

Lemma quiet_after_answer entry target d : stable quiet (after_answer entry target d).
Proof.
  unfold after_answer.
  repeat stable_step; auto using quiet_pasteItem_default, quiet_paste_catch.
Qed.

Lemma quiet_log e : is_user_decision e = false -> stable quiet (log e).
Proof.
  intros He s. split; [reflexivity |]. cbn. rewrite prompts_app. cbn.
  rewrite He. apply app_nil_r.
Qed.

(** With a sticky policy, the [try] block asks nothing. *)
Lemma quiet_paste_try entry target s :
  sticky (policy (copying s)) = true ->
  quiet s (snd (paste_try entry target s)).
Proof.
  intros Hs. unfold paste_try, bind at 1.
  pose proof (quiet_log (EvExists target) eq_refl s) as Hlog.
  unfold query.
  destruct (fs_exists target (world s)) as [[|] | ec]; cbn [fst snd]; try exact Hlog.
  - unfold bind at 1, gets at 1.
    change (policy (copying (with_trace (trace s ++ [EvExists target]) s)))
      with (policy (copying s)).
    destruct (policy (copying s)); try discriminate.
    + eapply frame_trans; [exact Hlog | apply quiet_pasteItem_default].
    + exact Hlog.
  - eapply frame_trans; [exact Hlog | apply quiet_pasteItem_default].
Qed.

Lemma quiet_paste_entry regexes entry s :
  sticky (policy (copying s)) = true ->
  quiet s (snd (paste_entry regexes entry s)).
Proof.
  intros Hs. unfold paste_entry, bind at 1.
  pose proof (quiet_log EvCurrentPath eq_refl s) as Hlog.
  unfold query.
  destruct (fs_current_path (world s)) as [cwd | ec]; cbn [fst snd]; try exact Hlog.
  destruct (filtered_out regexes entry); [exact Hlog |].
  set (s0 := with_trace (trace s ++ [EvCurrentPath]) s) in *.
  assert (Hs0 : sticky (policy (copying s0)) = true) by exact Hs.
  pose proof (quiet_paste_try entry (cwd // filename entry) s0 Hs0) as Htry.
  unfold try_catch.
  destruct (paste_try entry (cwd // filename entry) s0) as [[a | [ec |] | n] s1];
    cbn [fst snd] in *; try (eapply frame_trans; [exact Hlog | exact Htry]).
  eapply frame_trans; [exact Hlog |].
  eapply frame_trans; [exact Htry | apply quiet_paste_catch].
Qed.

Lemma quiet_paste_loop regexes entries s :
  sticky (policy (copying s)) = true ->
  quiet s (snd (paste_loop regexes entries s)).
Proof.
  unfold paste_loop. revert s.
  induction entries as [| entry entries IH]; intros s Hs; cbn [for_each].
  - apply frame_refl.
  - unfold bind.
    pose proof (quiet_paste_entry regexes entry s Hs) as Hstep.
    destruct (paste_entry regexes entry s) as [[a | e | n] s1]; cbn [fst snd] in *;
      try exact Hstep.
    eapply frame_trans; [exact Hstep |].
    apply IH. destruct Hstep as [Hp _]. now rewrite Hp.
Qed.

(** An entry that does not collide asks nothing either. *)
Lemma quiet_paste_entry_no_collision regexes entry s :
  (forall cwd,
     fs_current_path (world s) = FsOk cwd ->
     filtered_out regexes entry = false ->
     fs_exists (cwd // filename entry) (world s) <> FsOk true) ->
  quiet s (snd (paste_entry regexes entry s)).
Proof.
  intros Hno. unfold paste_entry, bind at 1.
  pose proof (quiet_log EvCurrentPath eq_refl s) as Hlog.
  unfold query at 1.
  destruct (fs_current_path (world s)) as [cwd | ec]; cbn [fst snd]; try exact Hlog.
  destruct (filtered_out regexes entry) eqn:Hf; [exact Hlog |].
  specialize (Hno cwd eq_refl eq_refl).
  set (s0 := with_trace (trace s ++ [EvCurrentPath]) s).
  change (quiet s s0) in Hlog.
  change (fs_exists (cwd // filename entry) (world s0) <> FsOk true) in Hno.
  eapply frame_trans; [exact Hlog |].
  clearbody s0. unfold try_catch.
  assert (Htry : quiet s0 (snd (paste_try entry (cwd // filename entry) s0))).
  { unfold paste_try, bind at 1.
    pose proof (quiet_log (EvExists (cwd // filename entry)) eq_refl s0) as Hlog0.
    unfold query at 1.
    destruct (fs_exists (cwd // filename entry) (world s0)) as [[|] | ec];
      cbn [fst snd]; try exact Hlog0; try congruence.
    eapply frame_trans; [exact Hlog0 | apply quiet_pasteItem_default]. }
  destruct (paste_try entry (cwd // filename entry) s0) as [[a | [ec |] | n] s1];
    cbn [fst snd] in *; try exact Htry.
  eapply frame_trans; [exact Htry | apply quiet_paste_catch].
Qed.

(** *** One iteration of [paste], by cases *)

(** Under [SkipAll] an entry whose target exists is passed over: the
    only calls are the two that found the target. *)
Lemma paste_entry_SkipAll regexes entry cwd s :
  fs_current_path (world s) = FsOk cwd ->
  filtered_out regexes entry = false ->
  fs_exists (cwd // filename entry) (world s) = FsOk true ->
  policy (copying s) = SkipAll ->
  paste_entry regexes entry s
  = (Ret tt, with_trace (trace s ++ [EvCurrentPath; EvExists (cwd // filename entry)]) s).
Proof.
  intros Hcwd Hf Hex Hpol. run.
  rewrite Hcwd, Hf. run. rewrite Hex. run. rewrite Hpol.
  unfold with_trace. now rewrite <- app_assoc.
Qed.

(** Under [ReplaceAll] an entry whose target exists and is the entry
    itself is counted, and nothing is copied. *)
Lemma paste_entry_ReplaceAll_equivalent regexes entry cwd s :
  fs_current_path (world s) = FsOk cwd ->
  filtered_out regexes entry = false ->
  fs_exists (cwd // filename entry) (world s) = FsOk true ->
  fs_equivalent entry (cwd // filename entry) (world s) = FsOk true ->
  policy (copying s) = ReplaceAll ->
  paste_entry regexes entry s
  = (Ret tt,
     with_successes (count_item (item_kind entry (world s)) (successes s))
       (with_trace (trace s ++ [EvCurrentPath; EvExists (cwd // filename entry);
                                EvExists (cwd // filename entry);
                                EvEquivalent entry (cwd // filename entry)]) s)).
Proof.
  intros Hcwd Hf Hex Heq Hpol. run.
  rewrite Hcwd, Hf. run. rewrite Hex. run. rewrite Hpol. run. rewrite Hex. run.
  rewrite Heq. run.
  unfold with_successes, with_trace. cbn. now rewrite <- !app_assoc.
Qed.

(** [pasteItem] on a target that exists and is the entry itself. *)
Lemma pasteItem_equivalent entry target u s :
  fs_exists target (world s) = FsOk true ->
  fs_equivalent entry target (world s) = FsOk true ->
  pasteItem entry target u s
  = (Ret tt,
     with_successes (count_item (item_kind entry (world s)) (successes s))
       (with_trace (trace s ++ [EvExists target; EvEquivalent entry target]) s)).
Proof.
  intros Hex Heq. run. rewrite Hex. run. rewrite Heq. run.
  unfold with_successes, with_trace. cbn. now rewrite <- !app_assoc.
Qed.

(** When the user has to be asked, the loop body asks, stores the
    answer, and goes on as the answer says. *)
Lemma paste_entry_ask regexes entry cwd s :
  let target := cwd // filename entry in
  fs_current_path (world s) = FsOk cwd ->
  filtered_out regexes entry = false ->
  fs_exists target (world s) = FsOk true ->
  sticky (policy (copying s)) = false ->
  paste_entry regexes entry s
  = after_answer entry target (fst (user_decision (filename entry) (world s)))
      (asked entry target s).
Proof.
  intros target Hcwd Hf Hex Hs. subst target.
  unfold after_answer, asked. run_outer. rewrite Hcwd, Hf. run_outer. rewrite Hex.
  run_outer.
  destruct (policy (copying s)); try discriminate; run_outer;
    destruct (user_decision (filename entry) (world s)) as [d w'];
    run_outer; rewrite <- !app_assoc; cbn [app]; destruct d; reflexivity.
Qed.

(** An entry that passes the filter is looked at: the existence of its
    target is the first thing asked. *)
Lemma paste_entry_visit regexes entry cwd s :
  fs_current_path (world s) = FsOk cwd ->
  filtered_out regexes entry = false ->
  exists rest,
    trace (snd (paste_entry regexes entry s))
    = trace s ++ EvCurrentPath :: EvExists (cwd // filename entry) :: rest.
Proof.
  intros Hcwd Hf. unfold paste_entry, bind at 1, query at 1. rewrite Hcwd, Hf.
  set (s0 := with_trace (trace s ++ [EvCurrentPath]) s).
  set (target := cwd // filename entry).
  assert (Htry : exists rest,
             trace (snd (paste_try entry target s0)) = trace s0 ++ EvExists target :: rest).
  { unfold paste_try, bind at 1, query at 1.
    set (s1 := with_trace (trace s0 ++ [EvExists target]) s0).
    assert (Hk : forall m : M unit, stable grows m ->
                 exists rest, trace (snd (m s1)) = trace s0 ++ EvExists target :: rest).
    { intros m Hm. destruct (Hm s1) as [rest Hrest]. exists rest.
      rewrite Hrest. subst s1. cbn. now rewrite <- app_assoc. }
    destruct (fs_exists target (world s0)) as [[|] | ec].
    - apply Hk. unfold pasteItem_default.
      repeat stable_step; auto using grows_pasteItem; grows_call.
    - apply Hk. apply grows_pasteItem_default.
    - exists []. reflexivity. }
  destruct Htry as [rest Hrest]. unfold try_catch.
  destruct (paste_try entry target s0) as [[a | [ec |] | n] s1]; cbn [fst snd] in *.
  2: { destruct (grows_paste_catch entry target ec s1) as [rest' Hrest'].
       exists (rest ++ rest'). rewrite Hrest', Hrest. subst s0. cbn.
       rewrite <- !app_assoc. reflexivity. }
  all: exists rest; rewrite Hrest; subst s0; cbn; rewrite <- app_assoc; reflexivity.
Qed.

(** *** [copyItem] *)

#[local] Instance settled_frame : Frame settled.
Proof.
  split.
  - intros s. repeat split.
  - intros a b c (H1 & H2 & H3) (H4 & H5 & H6). repeat split; congruence.
Qed.

Lemma settled_actuallyCopyItem f u : stable settled (actuallyCopyItem f u).
Proof.
  unfold actuallyCopyItem.
  repeat stable_step; stable_call; repeat split; reflexivity.
Qed.

Lemma grows_copyItem_catch f ec : stable grows (copyItem_catch f ec).
Proof.
  unfold copyItem_catch.
  repeat stable_step; auto using grows_actuallyCopyItem, grows_record_failure.
Qed.

(** A file whose copy throws: the attempt ends there. *)
Lemma actuallyCopyItem_file_fails f (u : bool) s ec w1 :
  let dst := data (path s) // filename f in
  let o := if u then opts (copying s) else Z.lor (opts (copying s)) create_hard_links in
  fs_is_directory f (world s) = FsOk false ->
  fs_copy f dst o (world s) = (FsErr ec, w1) ->
  actuallyCopyItem f u s
  = (Throw (filesystem_error ec),
     with_world w1 (with_trace (trace s ++ [EvIsDirectory f; EvCopy f dst o]) s)).
Proof.
  intros dst o Hdir Hcopy. subst dst o. run. rewrite Hdir. run. rewrite Hcopy.
  unfold with_world, with_trace. cbn. now rewrite <- app_assoc.
Qed.

(** The safe strategy copies at most once, and without hard links. *)
Lemma actuallyCopyItem_safe_copies f s :
  exists cs,
    copies (trace (snd (actuallyCopyItem f true s))) = copies (trace s) ++ cs /\
    (cs = [] \/ exists d, cs = [EvCopy f d (opts (copying s))]).
Proof.
  run_all; unfold copies; rewrite ?filter_app; cbn [filter is_copy];
    rewrite ?app_nil_r;
    solve [ exists []; split; [now rewrite app_nil_r | now left]
          | eexists; split; [reflexivity | right; eexists; reflexivity] ].
Qed.

(** A directory is created, and copied to, under [directory_target]. *)
Lemma actuallyCopyItem_directory f u s :
  let dst := data (path s) // directory_target f in
  fs_is_directory f (world s) = FsOk true ->
  exists rest,
    trace (snd (actuallyCopyItem f u s))
    = trace s ++ EvIsDirectory f :: EvCreateDirectories dst :: rest /\
    (forall b w1,
       fs_create_directories dst (world s) = (FsOk b, w1) ->
       exists rest', rest = EvCopy f dst (opts (copying s)) :: rest').
Proof.
  intros dst Hdir. subst dst. run. rewrite Hdir.
  run_all;
    (eexists; split;
     [ rewrite <- ?app_assoc; cbn [app]; reflexivity
     | intros b' w1' Hc; first [ discriminate Hc | eexists; reflexivity ] ]).
Qed.

(** *** Patterns *)

Lemma compile_list_invalid (l : list string) :
  (exists pattern, In pattern l /\ regex_compile pattern = None) ->
  compile_list l = None.
Proof.
  intros (x & Hin & Hx). induction l as [| y l IH]; cbn.
  - destruct Hin.
  - destruct Hin as [-> | Hin].
    + now rewrite Hx.
    + destruct (regex_compile y); [| reflexivity]. now rewrite IH.
Qed.

(** With patterns, the filter is the negation of "some pattern matches
    the whole name". *)
Lemma filtered_out_patterns regexes entry :
  regexes <> [] ->
  filtered_out regexes entry
  = negb (existsb (fun r => regex_match (filename entry) r) regexes).
Proof. intros Hne. unfold filtered_out. destruct regexes; [congruence | reflexivity]. Qed.

(** *** [removeRegex] *)

Lemma total_count_item k c : total (count_item k c) = (total c + 1)%N.
Proof. unfold total. destruct k; cbn; lia. Qed.

(** The loop over the patterns, for one entry, returns; it leaves the
    file system that [removals_entry] computes, and counts as many items
    as calls of [fs::remove_all] returned. *)
(** One pattern, by cases. *)
Lemma remove_if_match_step entry pattern s :
  remove_if_match entry pattern s
  = (Ret tt,
     if regex_match (filename entry) pattern then
       match fs_remove_all entry (world s) with
       | (FsOk _, w') =>
           with_successes (count_item (item_kind entry w') (successes s))
             (with_world w' (with_trace (trace s ++ [EvRemoveAll entry]) s))
       | (FsErr ec, w') =>
           with_copying
             (with_failedItems (failedItems (copying s) ++ [(filename entry, ec)])
                (copying s))
             (with_world w' (with_trace (trace s ++ [EvRemoveAll entry]) s))
       end
     else s).
Proof.
  unfold remove_if_match. destruct (regex_match (filename entry) pattern); [| reflexivity].
  run. destruct (fs_remove_all entry (world s)) as [[n | ec] w']; reflexivity.
Qed.

Lemma remove_patterns_spec entry regexes s :
  let r := for_each regexes (remove_if_match entry) s in
  fst r = Ret tt /\
  world (snd r) = snd (removals_entry entry regexes (world s)) /\
  total (successes (snd r))
  = (total (successes s) + fst (removals_entry entry regexes (world s)))%N.
Proof.
  cbv zeta. revert s.
  induction regexes as [| pattern regexes IH]; intros s; cbn [for_each removals_entry].
  - cbn. repeat split. lia.
  - unfold bind. rewrite remove_if_match_step.
    destruct (regex_match (filename entry) pattern); [| apply IH].
    destruct (fs_remove_all entry (world s)) as [[n | ec] w'].
    + match goal with
      | |- context [for_each regexes _ ?s1] => destruct (IH s1) as (H1 & H2 & H3)
      end.
      cbn [world successes with_successes with_world with_trace] in H2, H3.
      destruct (removals_entry entry regexes w') as [k w'']. cbn [fst snd] in *.
      repeat split; auto. rewrite H3, total_count_item. lia.
    + match goal with
      | |- context [for_each regexes _ ?s1] => destruct (IH s1) as (H1 & H2 & H3)
      end.
      cbn [world successes with_copying with_world with_trace] in H2, H3. auto.
Qed.

Lemma remove_entries_spec entries regexes s :
  let r := for_each entries (fun entry => for_each regexes (remove_if_match entry)) s in
  fst r = Ret tt /\
  world (snd r) = snd (removals entries regexes (world s)) /\
  total (successes (snd r))
  = (total (successes s) + fst (removals entries regexes (world s)))%N.
Proof.
  cbv zeta. revert s.
  induction entries as [| entry entries IH]; intros s; cbn [for_each removals].
  - cbn. repeat split. lia.
  - unfold bind.
    destruct (remove_patterns_spec entry regexes s) as (H1 & H2 & H3).
    destruct (for_each regexes (remove_if_match entry) s) as [o s1].
    cbn [fst snd] in H1, H2, H3. subst o.
    destruct (IH s1) as (H4 & H5 & H6).
    rewrite H2 in H5, H6.
    destruct (removals_entry entry regexes (world s)) as [n w']. cbn [fst snd] in *.
    destruct (removals entries regexes w') as [m w'']. cbn [fst snd] in *.
    repeat split; auto. rewrite H6, H3. lia.
Qed.

(** ** The retry after a failed copy *)

(** In [copyItem], an error other than [cross_device_link], or any error
    when safe copies are already in use, is recorded at once. *)
Lemma copyItem_other_error_fails_at_once f s ec s1 :
  actuallyCopyItem f (use_safe_copy (copying s)) s = (Throw (filesystem_error ec), s1) ->
  use_safe_copy (copying s) = true \/ ec <> cross_device_link ->
  copyItem f s
  = (Ret tt,
     with_copying (with_failedItems (failedItems (copying s1) ++ [(f, ec)]) (copying s1)) s1).
Proof.
  intros Hfirst Hno.
  destruct (settled_actuallyCopyItem f (use_safe_copy (copying s)) s) as (Hc & _ & _).
  rewrite Hfirst in Hc. cbn in Hc.
  unfold copyItem, try_catch, bind at 1, gets at 1. cbn [fst snd]. rewrite Hfirst.
  assert (Hu : use_safe_copy (copying s1) = use_safe_copy (copying s)) by now rewrite Hc.
  unfold copyItem_catch, bind, gets. rewrite Hu.
  destruct Hno as [-> | Hne]; [reflexivity |].
  apply Z.eqb_neq in Hne. rewrite Hne, andb_false_r. reflexivity.
Qed.

(** In [paste], the [catch] block never looks at the error code: with
    fast copies in use, whatever made the attempt fail, the entry is
    pasted again with a full copy. *)
Lemma paste_catch_retries_whatever_the_error entry target ec s :
  use_safe_copy (copying s) = false ->
  paste_catch entry target ec s
  = try_catch (pasteItem entry target true)
      (fun ec' => record_failure (filename entry) ec') s.
Proof. intros Hsafe. unfold paste_catch, bind, gets. now rewrite Hsafe. Qed.

(** C6.  In [copyItem], when the hard-link copy of a file fails with
    [cross_device_link], the safe strategy runs exactly once, from the
    state the failed copy left, and [copyItem] ends where that run ends:
    it returns normally if the run returned or threw a file-system
    error.  The failure list grows by exactly one entry, for this item,
    if the safe run threw, and does not change otherwise.  The copies
    made are the failed hard-link copy followed by at most one copy, with
    the configured options. *)
Theorem copyItem_cross_device_retries_once f s w1 :
  let dst := data (path s) // filename f in
  let fast := Z.lor (opts (copying s)) create_hard_links in
  use_safe_copy (copying s) = false ->
  fs_is_directory f (world s) = FsOk false ->
  fs_copy f dst fast (world s) = (FsErr cross_device_link, w1) ->
  let s1 := with_world w1 (with_trace (trace s ++ [EvIsDirectory f; EvCopy f dst fast]) s) in
  let retry := actuallyCopyItem f true s1 in
  let r := copyItem f s in
  fst r = match fst retry with
          | Throw (filesystem_error _) => Ret tt
          | o => o
          end /\
  world (snd r) = world (snd retry) /\
  trace (snd r) = trace (snd retry) /\
  failedItems (copying (snd r))
  = failedItems (copying s)
    ++ match fst retry with
       | Throw (filesystem_error ec) => [(f, ec)]
       | _ => []
       end /\
  exists cs,
    copies (trace (snd r)) = copies (trace s) ++ EvCopy f dst fast :: cs /\
    (cs = [] \/ exists d, cs = [EvCopy f d (opts (copying s))]).
Proof.
  intros dst fast Hsafe Hdir Hcopy s1 retry r.
  assert (Hr : r = try_catch (actuallyCopyItem f true) (fun ec' => record_failure f ec') s1).
  { subst r. unfold copyItem, try_catch at 1, bind at 1, gets at 1. cbn [fst snd].
    rewrite Hsafe.
    rewrite (actuallyCopyItem_file_fails f false s _ w1 Hdir Hcopy).
    unfold copyItem_catch, bind, gets. cbn [copying with_world with_trace].
    rewrite Hsafe. reflexivity. }
  destruct (settled_actuallyCopyItem f true s1) as (Hc & _ & _).
  destruct (actuallyCopyItem_safe_copies f s1) as (cs & Hcs & Hshape).
  fold retry in Hc, Hcs. rewrite Hr. unfold try_catch. fold retry.
  assert (Hs1 : copies (trace s1) = copies (trace s) ++ [EvCopy f dst fast]).
  { subst s1. cbn. rewrite copies_app. reflexivity. }
  rewrite Hs1, <- app_assoc in Hcs. cbn [app] in Hcs.
  change (opts (copying s1)) with (opts (copying s)) in Hshape.
  change (copying s1) with (copying s) in Hc.
  destruct retry as [[[] | [ec |] | n] s2]; cbn [fst snd] in *;
    rewrite ?Hc, ?app_nil_r; repeat split; eauto.
  cbn. rewrite Hc. reflexivity.
Qed.

(** ** The name of a copied directory *)

(** C7.  When [copyItem] is given a directory, the first things it does
    are to create, and then copy into, the entry of the data directory
    named by the last component of the source path, or, when that
    component is empty, by the last component of the parent path. *)
Theorem copyItem_directory_name f s :
  let name := if path_empty (filename f) then filename (parent_path f) else filename f in
  let dst := data (path s) // name in
  fs_is_directory f (world s) = FsOk true ->
  exists rest,
    trace (snd (copyItem f s))
    = trace s ++ EvIsDirectory f :: EvCreateDirectories dst :: rest /\
    (forall b w1,
       fs_create_directories dst (world s) = (FsOk b, w1) ->
       exists rest', rest = EvCopy f dst (opts (copying s)) :: rest').
Proof.
  intros name dst Hdir.
  destruct (actuallyCopyItem_directory f (use_safe_copy (copying s)) s Hdir)
    as (rest & Htrace & Hcopy).
  change (data (path s) // directory_target f) with dst in Htrace, Hcopy.
  unfold copyItem, try_catch, bind at 1, gets at 1. cbn [fst snd].
  destruct (actuallyCopyItem f (use_safe_copy (copying s)) s) as [[a | [ec |] | n] s1];
    cbn [fst snd] in *; try (exists rest; split; assumption).
  destruct (grows_copyItem_catch f ec s1) as [rest2 Hrest2].
  exists (rest ++ rest2). split.
  - rewrite Hrest2, Htrace, <- app_assoc. reflexivity.
  - intros b w1 Hc. destruct (Hcopy b w1 Hc) as [rest' ->].
    eexists. reflexivity.
Qed.

(** ** Pasting onto an equivalent target *)

(** C3.  Whenever [pasteItem] runs for an entry whose target exists and
    denotes the same file-system entry, it returns normally, issues no
    copy or any other call that changes the file system, leaves the file
    system and the failure list as they were, and counts the entry in the
    success counter of its kind.  The same holds of the whole loop body
    when the policy lets the entry through ([ReplaceAll]). *)
Theorem paste_equivalent_target_counts_as_success regexes entry cwd u s :
  let target := cwd // filename entry in
  fs_exists target (world s) = FsOk true ->
  fs_equivalent entry target (world s) = FsOk true ->
  (let r := pasteItem entry target u s in
   fst r = Ret tt /\
   world (snd r) = world s /\
   writes (trace (snd r)) = writes (trace s) /\
   failedItems (copying (snd r)) = failedItems (copying s) /\
   successes (snd r) = count_item (item_kind entry (world s)) (successes s))
  /\
  (fs_current_path (world s) = FsOk cwd ->
   filtered_out regexes entry = false ->
   policy (copying s) = ReplaceAll ->
   let r := paste_entry regexes entry s in
   fst r = Ret tt /\
   world (snd r) = world s /\
   writes (trace (snd r)) = writes (trace s) /\
   failedItems (copying (snd r)) = failedItems (copying s) /\
   successes (snd r) = count_item (item_kind entry (world s)) (successes s)).
Proof.
  intros target Hex Heq. split.
  - rewrite (pasteItem_equivalent _ _ _ _ Hex Heq). cbn.
    rewrite writes_app. cbn. rewrite app_nil_r. auto.
  - intros Hcwd Hf Hpol.
    rewrite (paste_entry_ReplaceAll_equivalent _ _ _ _ Hcwd Hf Hex Heq Hpol). cbn.
    rewrite writes_app. cbn. rewrite app_nil_r. auto.
Qed.

(** ** The policy gate *)

(** C4.  For an entry whose target exists, the policy is looked at
    before anything is asked about equivalence.  Under [SkipAll] the
    loop body stops after the existence test: [fs::equivalent] is not
    called, so whatever it would say, the entry yields no success and no
    failure.  When the user has to be asked, the question comes right
    after the existence test.  Equivalence only matters once a paste is
    attempted: under [ReplaceAll] an equivalent target is not copied to,
    and the entry is counted. *)
Theorem paste_policy_gate_precedes_equivalence regexes entry cwd s :
  let target := cwd // filename entry in
  let s' := snd (paste_entry regexes entry s) in
  fs_current_path (world s) = FsOk cwd ->
  filtered_out regexes entry = false ->
  fs_exists target (world s) = FsOk true ->
  (policy (copying s) = SkipAll ->
   trace s' = trace s ++ [EvCurrentPath; EvExists target] /\
   successes s' = successes s /\
   failedItems (copying s') = failedItems (copying s) /\
   world s' = world s)
  /\
  (policy (copying s) <> SkipAll -> policy (copying s) <> ReplaceAll ->
   exists rest,
     trace s' = trace s ++ [EvCurrentPath; EvExists target; EvStopIndicator;
                            EvUserDecision (filename entry)] ++ rest)
  /\
  (policy (copying s) = ReplaceAll ->
   fs_equivalent entry target (world s) = FsOk true ->
   copies (trace s') = copies (trace s) /\
   successes s' = count_item (item_kind entry (world s)) (successes s) /\
   failedItems (copying s') = failedItems (copying s)).
Proof.
  intros target s' Hcwd Hf Hex. subst s' target. repeat split.
  1-4: rewrite (paste_entry_SkipAll _ _ _ _ Hcwd Hf Hex H); reflexivity.
  - intros Hs Hr.
    rewrite (paste_entry_ask _ _ _ _ Hcwd Hf Hex)
      by (destruct (policy (copying s)); cbn; congruence).
    destruct (grows_after_answer entry (cwd // filename entry)
                (fst (user_decision (filename entry) (world s)))
                (asked entry (cwd // filename entry) s)) as [rest Hrest].
    rewrite Hrest. unfold asked.
    destruct (user_decision (filename entry) (world s)) as [d w']. cbn.
    exists (EvStartIndicator :: rest). rewrite <- app_assoc. reflexivity.
  - rewrite (paste_entry_ReplaceAll_equivalent _ _ _ _ Hcwd Hf Hex H0 H). cbn.
    rewrite copies_app. cbn. now rewrite app_nil_r.
  - now rewrite (paste_entry_ReplaceAll_equivalent _ _ _ _ Hcwd Hf Hex H0 H).
  - now rewrite (paste_entry_ReplaceAll_equivalent _ _ _ _ Hcwd Hf Hex H0 H).
Qed.

(** C5.  While the policy is [SkipAll], an entry of the batch whose
    target exists is passed over: the loop body returns normally, no copy
    and no other change of the file system is attempted, no failure is
    recorded, no success counter moves, and the policy stays [SkipAll]. *)
Theorem paste_SkipAll_bypasses_collision regexes entry cwd s :
  fs_current_path (world s) = FsOk cwd ->
  filtered_out regexes entry = false ->
  fs_exists (cwd // filename entry) (world s) = FsOk true ->
  policy (copying s) = SkipAll ->
  let r := paste_entry regexes entry s in
  fst r = Ret tt /\
  copies (trace (snd r)) = copies (trace s) /\
  writes (trace (snd r)) = writes (trace s) /\
  world (snd r) = world s /\
  failedItems (copying (snd r)) = failedItems (copying s) /\
  successes (snd r) = successes s /\
  policy (copying (snd r)) = SkipAll.
Proof.
  intros Hcwd Hf Hex Hpol.
  rewrite (paste_entry_SkipAll _ _ _ _ Hcwd Hf Hex Hpol). cbn.
  rewrite copies_app, writes_app. cbn. rewrite !app_nil_r. repeat split; auto.
Qed.

(** C2.  Once the policy of a batch is [SkipAll] or [ReplaceAll], the
    rest of the loop, whatever entries it meets, never calls
    [userDecision] and leaves the policy as it is.  When the policy is
    neither, an entry whose target exists makes the loop body call
    [userDecision] exactly once, for that entry's name, and the answer
    becomes the policy: after a skip-once or replace-once answer the
    policy is not sticky, so the next such entry asks again; entries in
    between that do not collide neither ask nor touch the policy. *)
Theorem paste_policy_sticky_once_all :
  (forall regexes entries s,
     policy (copying s) = SkipAll \/ policy (copying s) = ReplaceAll ->
     let s' := snd (paste_loop regexes entries s) in
     policy (copying s') = policy (copying s) /\
     prompts (trace s') = prompts (trace s))
  /\
  (forall regexes entry cwd s,
     fs_current_path (world s) = FsOk cwd ->
     filtered_out regexes entry = false ->
     fs_exists (cwd // filename entry) (world s) = FsOk true ->
     policy (copying s) <> SkipAll ->
     policy (copying s) <> ReplaceAll ->
     let s' := snd (paste_entry regexes entry s) in
     prompts (trace s') = prompts (trace s) ++ [EvUserDecision (filename entry)] /\
     policy (copying s') = fst (user_decision (filename entry) (world s)))
  /\
  (forall regexes entry s,
     (forall cwd,
        fs_current_path (world s) = FsOk cwd ->
        filtered_out regexes entry = false ->
        fs_exists (cwd // filename entry) (world s) <> FsOk true) ->
     let s' := snd (paste_entry regexes entry s) in
     policy (copying s') = policy (copying s) /\
     prompts (trace s') = prompts (trace s)).
Proof.
  split; [| split].
  - intros regexes entries s Hs. apply quiet_paste_loop.
    destruct Hs as [-> | ->]; reflexivity.
  - intros regexes entry cwd s Hcwd Hf Hex Hn1 Hn2 s'. subst s'.
    rewrite (paste_entry_ask _ _ _ _ Hcwd Hf Hex)
      by (destruct (policy (copying s)); cbn; congruence).
    destruct (quiet_after_answer entry (cwd // filename entry)
                (fst (user_decision (filename entry) (world s)))
                (asked entry (cwd // filename entry) s)) as [Hp Ht].
    rewrite Hp, Ht. unfold asked.
    destruct (user_decision (filename entry) (world s)) as [d w']. cbn.
    split; [| reflexivity].
    rewrite prompts_app. cbn. reflexivity.
  - intros regexes entry s Hno. apply quiet_paste_entry_no_collision. exact Hno.
Qed.

(** ** Filter patterns *)

(** C8.  With a non-empty set of patterns, [paste] visits a staged entry
    if and only if [std::regex_match], which matches the whole string,
    accepts the entry's file name for at least one pattern.  For an entry
    that no pattern matches, the loop body returns at once: apart from
    the record of the call that computed its target, the state is what
    it was, so nothing is counted and no failure is recorded. *)
Theorem paste_filter_whole_name regexes entry cwd s :
  regexes <> [] ->
  fs_current_path (world s) = FsOk cwd ->
  let matched := existsb (fun r => regex_match (filename entry) r) regexes in
  (visited regexes entry s <-> matched = true) /\
  (matched = false ->
   paste_entry regexes entry s = (Ret tt, with_trace (trace s ++ [EvCurrentPath]) s)).
Proof.
  intros Hne Hcwd matched.
  pose proof (filtered_out_patterns regexes entry Hne) as Hf. fold matched in Hf.
  assert (Hskip : matched = false ->
                  paste_entry regexes entry s
                  = (Ret tt, with_trace (trace s ++ [EvCurrentPath]) s)).
  { intros Hm. unfold paste_entry, bind, query. now rewrite Hcwd, Hf, Hm. }
  split; [split |]; trivial.
  - intros (cwd' & rest & _ & Htrace). destruct matched; [reflexivity |].
    rewrite (Hskip eq_refl) in Htrace. cbn in Htrace.
    apply app_inv_head in Htrace. discriminate Htrace.
  - intros Hm. rewrite Hm in Hf. cbn in Hf.
    destruct (paste_entry_visit regexes entry cwd s Hcwd Hf) as [rest Hrest].
    exists cwd, rest. split; assumption.
Qed.

(** C9.  If one of the supplied patterns does not compile, [paste]
    throws [std::regex_error] before it opens the staging directory: the
    state, with its counters, failure list, file system and trace, is
    exactly what it was, and [removeOldFiles] is not reached. *)
Theorem paste_invalid_pattern_aborts removeOldFiles s :
  (exists pattern, In pattern (items (copying s)) /\ regex_compile pattern = None) ->
  paste removeOldFiles s = (Throw regex_error, s).
Proof.
  intros Hbad. pose proof (compile_list_invalid _ Hbad) as Hnone.
  unfold paste, bind at 1, gets at 1. unfold bind at 1.
  destruct (items (copying s)) as [| x l].
  - destruct Hbad as (x & [] & _).
  - unfold compile_all. rewrite Hnone. reflexivity.
Qed.

(** ** Removal by pattern *)

(** The file branch when no call of [fs::remove_all] returns. *)
Lemma removeRegex_files_none regexes s entries :
  fs_directory_iterator (data (path s)) (world s) = FsOk entries ->
  files (successes s) = 0%N ->
  directories (successes s) = 0%N ->
  fst (removals entries regexes (world s)) = 0%N ->
  exists s3,
    removeRegex_files regexes s
    = (Exit EXIT_FAILURE, with_trace (trace s3 ++ [EvNoMatchMessage]) s3) /\
    grows s s3.
Proof.
  intros Hiter Hfiles Hdirs Hnone.
  set (s2 := with_trace (trace s ++ [EvDirectoryIterator (data (path s))]) s).
  destruct (remove_entries_spec entries regexes s2) as (H1 & H2 & H3).
  assert (Hg : grows s2
                 (snd (for_each entries
                         (fun entry => for_each regexes (remove_if_match entry)) s2))).
  { apply stable_for_each; [exact _ |]. intros entry.
    apply stable_for_each; [exact _ |]. intros pattern.
    unfold remove_if_match. repeat stable_step; grows_call. }
  destruct (for_each entries (fun entry => for_each regexes (remove_if_match entry)) s2)
    as [o s3] eqn:Hloop.
  cbn [fst snd] in H1, H2, H3, Hg. subst o.
  change (world s2) with (world s) in H3. change (successes s2) with (successes s) in H3.
  rewrite Hnone in H3. unfold total in H3. rewrite Hfiles, Hdirs in H3.
  assert (Hf0 : files (successes s3) = 0%N) by lia.
  assert (Hd0 : directories (successes s3) = 0%N) by lia.
  exists s3. split.
  - unfold removeRegex_files, bind at 1, gets at 1, bind at 1, query at 1.
    rewrite Hiter. fold s2. unfold bind at 1. rewrite Hloop.
    unfold bind, gets, no_match_message, log, modify, exit. rewrite Hf0, Hd0.
    reflexivity.
  - destruct Hg as [rest Hrest]. exists (EvDirectoryIterator (data (path s)) :: rest).
    rewrite Hrest. subst s2. cbn. rewrite <- app_assoc. reflexivity.
Qed.

(** C10.  [removeRegex], once its patterns are compiled.  On a clipboard
    that holds text: if removing every match of every pattern leaves the
    length of the content unchanged, the handler prints the error
    message and ends the process with [EXIT_FAILURE], without writing the
    content back.  On a clipboard that holds files, with both counters
    at zero when the handler starts: if no call of [fs::remove_all]
    returned, so that nothing was removed, the handler prints the error
    message and ends the process with [EXIT_FAILURE]. *)
Theorem removeRegex_no_match_is_fatal s regexes s1 :
  removeRegex_patterns s = (Ret regexes, s1) ->
  let raw := data_raw (path s1) in
  let r := removeRegex s in
  (fs_is_regular_file raw (world s1) = FsOk true ->
   let content := file_contents raw (world s1) in
   String.length (fold_left (fun c pattern => regex_replace c pattern "") regexes content)
   = String.length content ->
   fst r = Exit EXIT_FAILURE /\
   world (snd r) = world s1 /\
   writes (trace (snd r)) = writes (trace s1) /\
   trace (snd r) = trace s1 ++ [EvIsRegularFile raw; EvFileContents raw; EvNoMatchMessage])
  /\
  (fs_is_regular_file raw (world s1) = FsOk false ->
   forall entries,
     fs_directory_iterator (data (path s1)) (world s1) = FsOk entries ->
     files (successes s1) = 0%N ->
     directories (successes s1) = 0%N ->
     fst (removals entries regexes (world s1)) = 0%N ->
     fst r = Exit EXIT_FAILURE /\
     exists rest, trace (snd r) = trace s1 ++ rest ++ [EvNoMatchMessage]).
Proof.
  intros Hpat raw r.
  assert (Hr : r = (text <- query (EvIsRegularFile raw) (fs_is_regular_file raw) ;;
                    if text then removeRegex_text regexes
                    else removeRegex_files regexes) s1).
  { subst r. unfold removeRegex, bind at 1. rewrite Hpat. reflexivity. }
  rewrite Hr. clear Hr r. split.
  - intros Hreg content Hlen. subst content raw. run. rewrite Hreg. run.
    rewrite Hlen, Nat.eqb_refl. cbn.
    rewrite !writes_app. cbn. rewrite !app_nil_r, <- !app_assoc. auto.
  - intros Hreg entries Hiter Hfiles Hdirs Hnone. subst raw.
    set (s2 := with_trace (trace s1 ++ [EvIsRegularFile (data_raw (path s1))]) s1).
    destruct (removeRegex_files_none regexes s2 entries Hiter Hfiles Hdirs Hnone)
      as (s3 & Hrun & [rest Hrest]).
    assert (Hr : (text <- query (EvIsRegularFile (data_raw (path s1)))
                            (fs_is_regular_file (data_raw (path s1))) ;;
                  if text then removeRegex_text regexes
                  else removeRegex_files regexes) s1
                 = (Exit EXIT_FAILURE, with_trace (trace s3 ++ [EvNoMatchMessage]) s3)).
    { unfold bind, query. rewrite Hreg. exact Hrun. }
    rewrite Hr. cbn [fst snd trace with_trace]. split; [reflexivity |].
    rewrite Hrest. subst s2. cbn [trace with_trace].
    exists (EvIsRegularFile (data_raw (path s1)) :: rest).
    rewrite <- !app_assoc. reflexivity.
Qed.

End Properties.

(** * The statements at sample inputs *)

Import Scenario.
Open Scope list_scope.
#[local] Existing Instance Posix.platform.


(** [copyItem], on the same file system, records the error at once. *)
Example copyItem_operation_not_permitted_fails_at_once :
  let r := copyItem "/src/a.txt" copying_without_links in
  fst r = Ret tt /\
  copies (trace (snd r)) = [EvCopy "/src/a.txt" "/clip/a.txt" 256%Z] /\
  failedItems (copying (snd r)) = [("/src/a.txt", operation_not_permitted)] /\
  successes (snd r) = mkSuccesses 0 0 0.
Proof. vm_compute. repeat split. Qed.

(** The scenario of the specification: with the pattern [a.*], only
    [apple.txt] is pasted. *)
Example paste_a_star_pastes_apple_only :
  let r := paste (ret tt) (pasting_filtered ["a.*"]) in
  fst r = Ret tt /\
  copies (trace (snd r)) = [EvCopy "/clip/apple.txt" "/home/apple.txt" 256%Z] /\
  successes (snd r) = mkSuccesses 1 0 0 /\
  failedItems (copying (snd r)) = [].
Proof. vm_compute. repeat split. Qed.

(** The names [copyItem] gives to directories. *)
Example directory_target_samples :
  directory_target "/src/dir" = "dir" /\
  directory_target "/src/dir/" = "dir" /\
  directory_target "/" = "".
Proof. vm_compute. repeat split. Qed.

Lemma paste_policy_sticky_once_all_witness :
  (let s := pasting ReplaceAll staged [] in
   let s' := snd (paste_loop [] ["/clip/apple.txt"; "/clip/banana.txt"] s) in
   (policy (copying s) = SkipAll \/ policy (copying s) = ReplaceAll) /\
   policy (copying s') = policy (copying s) /\
   prompts (trace s') = prompts (trace s))
  /\
  (let s := pasting SkipOnce staged [ReplaceOnce] in
   let s' := snd (paste_entry [] "/clip/banana.txt" s) in
   prompts (trace s') = prompts (trace s) ++ [EvUserDecision "banana.txt"] /\
   policy (copying s') = ReplaceOnce)
  /\
  (let s := pasting Unknown fresh [] in
   let s' := snd (paste_entry [] "/clip/apple.txt" s) in
   policy (copying s') = policy (copying s) /\
   prompts (trace s') = prompts (trace s)).
Proof.
  destruct (@paste_policy_sticky_once_all Posix.platform) as (Hall & Hask & Hquiet).
  split; [| split].
  - intros s s'. split; [right; reflexivity |].
    apply (Hall [] ["/clip/apple.txt"; "/clip/banana.txt"] s). right. reflexivity.
  - intros s s'.
    apply (Hask [] "/clip/banana.txt" "/home" s);
      solve [reflexivity | vm_compute; discriminate].
  - intros s s'. apply (Hquiet [] "/clip/apple.txt" s).
    intros cwd Hcwd _. vm_compute in Hcwd. injection Hcwd as <-.
    vm_compute. discriminate.
Defined.

Lemma paste_equivalent_target_counts_as_success_witness :
  let s := pasting ReplaceAll staged [] in
  (fs_exists "/home/apple.txt" (world s) = FsOk true /\
   fs_equivalent "/clip/apple.txt" "/home/apple.txt" (world s) = FsOk true) /\
  (let r := pasteItem "/clip/apple.txt" "/home/apple.txt" false s in
   fst r = Ret tt /\
   world (snd r) = world s /\
   writes (trace (snd r)) = writes (trace s) /\
   failedItems (copying (snd r)) = failedItems (copying s) /\
   successes (snd r) = mkSuccesses 1 0 0) /\
  (let r := paste_entry [] "/clip/apple.txt" s in
   fst r = Ret tt /\
   world (snd r) = world s /\
   writes (trace (snd r)) = writes (trace s) /\
   failedItems (copying (snd r)) = failedItems (copying s) /\
   successes (snd r) = mkSuccesses 1 0 0).
Proof.
  intros s.
  assert (Hex : fs_exists ("/home" // filename "/clip/apple.txt")%path (world s) = FsOk true)
    by reflexivity.
  assert (Heq : fs_equivalent "/clip/apple.txt" ("/home" // filename "/clip/apple.txt")%path
                  (world s) = FsOk true) by reflexivity.
  destruct (paste_equivalent_target_counts_as_success
              [] "/clip/apple.txt" "/home" false s Hex Heq) as [Hitem Hentry].
  split; [split; assumption |]. split.
  - exact Hitem.
  - apply Hentry; reflexivity.
Defined.

Lemma paste_policy_gate_precedes_equivalence_witness :
  (let s := pasting SkipAll staged [] in
   let s' := snd (paste_entry [] "/clip/apple.txt" s) in
   fs_equivalent "/clip/apple.txt" "/home/apple.txt" (world s) = FsOk true /\
   trace s' = trace s ++ [EvCurrentPath; EvExists "/home/apple.txt"] /\
   successes s' = successes s /\
   failedItems (copying s') = failedItems (copying s) /\
   world s' = world s)
  /\
  (let s := pasting Unknown staged [SkipOnce] in
   let s' := snd (paste_entry [] "/clip/apple.txt" s) in
   exists rest,
     trace s' = trace s ++ [EvCurrentPath; EvExists "/home/apple.txt"; EvStopIndicator;
                            EvUserDecision "apple.txt"] ++ rest)
  /\
  (let s := pasting ReplaceAll staged [] in
   let s' := snd (paste_entry [] "/clip/apple.txt" s) in
   copies (trace s') = copies (trace s) /\
   successes s' = mkSuccesses 1 0 0 /\
   failedItems (copying s') = failedItems (copying s)).
Proof.
  split; [| split].
  - intros s s'. split; [reflexivity |].
    apply (paste_policy_gate_precedes_equivalence [] "/clip/apple.txt" "/home" s);
      reflexivity.
  - intros s s'.
    apply (paste_policy_gate_precedes_equivalence [] "/clip/apple.txt" "/home" s);
      solve [reflexivity | vm_compute; discriminate].
  - intros s s'.
    apply (paste_policy_gate_precedes_equivalence [] "/clip/apple.txt" "/home" s);
      reflexivity.
Defined.

Lemma paste_SkipAll_bypasses_collision_witness :
  let s := pasting SkipAll staged [] in
  let r := paste_entry [] "/clip/banana.txt" s in
  (fs_current_path (world s) = FsOk "/home" /\
   filtered_out [] "/clip/banana.txt" = false /\
   fs_exists "/home/banana.txt" (world s) = FsOk true /\
   policy (copying s) = SkipAll) /\
  (fst r = Ret tt /\
   copies (trace (snd r)) = copies (trace s) /\
   writes (trace (snd r)) = writes (trace s) /\
   world (snd r) = world s /\
   failedItems (copying (snd r)) = failedItems (copying s) /\
   successes (snd r) = successes s /\
   policy (copying (snd r)) = SkipAll).
Proof.
  intros s r. split; [repeat split |].
  apply (paste_SkipAll_bypasses_collision [] "/clip/banana.txt" "/home" s); reflexivity.
Defined.

Lemma copyItem_cross_device_retries_once_witness :
  let s := copying_across (Some permission_denied) in
  let r := copyItem "/src/a.txt" s in
  (use_safe_copy (copying s) = false /\
   fs_is_directory "/src/a.txt" (world s) = FsOk false /\
   fs_copy "/src/a.txt" "/clip/a.txt" 256%Z (world s) = (FsErr cross_device_link, world s)) /\
  (fst r = Ret tt /\
   failedItems (copying (snd r)) = [("/src/a.txt", permission_denied)] /\
   copies (trace (snd r))
   = [EvCopy "/src/a.txt" "/clip/a.txt" 256%Z; EvCopy "/src/a.txt" "/clip/a.txt" 0%Z]).
Proof.
  intros s r. split; [repeat split |].
  assert (Hsafe : use_safe_copy (copying s) = false) by reflexivity.
  assert (Hdir : fs_is_directory "/src/a.txt" (world s) = FsOk false) by reflexivity.
  assert (Hcopy : fs_copy "/src/a.txt" (data (path s) // filename "/src/a.txt")%path
                    (Z.lor (opts (copying s)) create_hard_links) (world s)
                  = (FsErr cross_device_link, world s)) by reflexivity.
  destruct (copyItem_cross_device_retries_once "/src/a.txt" s (world s) Hsafe Hdir Hcopy)
    as (Hout & _ & _ & Hfailed & _).
  split; [exact Hout | split; [exact Hfailed | reflexivity]].
Defined.

Lemma copyItem_directory_name_witness :
  let s := copying_across None in
  fs_is_directory "/src/dir/" (world s) = FsOk true /\
  exists rest,
    trace (snd (copyItem "/src/dir/" s))
    = trace s ++ EvIsDirectory "/src/dir/" :: EvCreateDirectories "/clip/dir" :: rest /\
    (forall b w1,
       fs_create_directories "/clip/dir" (world s) = (FsOk b, w1) ->
       exists rest', rest = EvCopy "/src/dir/" "/clip/dir" 0%Z :: rest').
Proof.
  intros s. split; [reflexivity |].
  apply (copyItem_directory_name "/src/dir/" s). reflexivity.
Defined.

Lemma paste_filter_whole_name_witness :
  let s := pasting_filtered ["a.*"] in
  ([a_star] <> [] /\ fs_current_path (world s) = FsOk "/home") /\
  ((visited [a_star] "/clip/banana.txt" s <-> false = true) /\
   (false = false ->
    paste_entry [a_star] "/clip/banana.txt" s
    = (Ret tt, with_trace (trace s ++ [EvCurrentPath]) s))) /\
  ((visited [a_star] "/clip/apple.txt" s <-> true = true) /\
   (true = false ->
    paste_entry [a_star] "/clip/apple.txt" s
    = (Ret tt, with_trace (trace s ++ [EvCurrentPath]) s))).
Proof.
  intros s.
  assert (Hne : [a_star] <> []) by discriminate.
  assert (Hcwd : fs_current_path (world s) = FsOk "/home") by reflexivity.
  split; [split; assumption |]. split.
  - exact (paste_filter_whole_name [a_star] "/clip/banana.txt" "/home" s Hne Hcwd).
  - exact (paste_filter_whole_name [a_star] "/clip/apple.txt" "/home" s Hne Hcwd).
Defined.

Lemma paste_invalid_pattern_aborts_witness :
  let s := pasting_filtered ["a.*"; "("] in
  (In "(" (items (copying s)) /\ regex_compile "(" = None) /\
  paste (ret tt) s = (Throw regex_error, s).
Proof.
  intros s.
  assert (Hbad : In "(" (items (copying s)) /\ regex_compile "(" = None).
  { split; [right; left; reflexivity | reflexivity]. }
  split; [exact Hbad |].
  apply (paste_invalid_pattern_aborts (ret tt) s). exists "(". exact Hbad.
Defined.

Lemma removeRegex_no_match_is_fatal_witness :
  (let s := removing ["z"] text in
   let r := removeRegex s in
   fs_is_regular_file "/clip/rawdata.clipboard" (world s) = FsOk true /\
   fst r = Exit EXIT_FAILURE /\
   world (snd r) = world s /\
   writes (trace (snd r)) = writes (trace s))
  /\
  (let s := removing ["z.*"] fresh in
   let r := removeRegex s in
   fs_is_regular_file "/clip/rawdata.clipboard" (world s) = FsOk false /\
   fst (removals ["/clip/apple.txt"; "/clip/banana.txt"]
          [[(Posix.Lit "z"%char, false); (Posix.AnyChar, true)]] (world s)) = 0%N /\
   fst r = Exit EXIT_FAILURE).
Proof.
  split.
  - intros s r.
    assert (Hpat : removeRegex_patterns s = (Ret [[(Posix.Lit "z"%char, false)]], s))
      by reflexivity.
    destruct (removeRegex_no_match_is_fatal s _ s Hpat) as [Htext _].
    split; [reflexivity |].
    destruct (Htext eq_refl eq_refl) as (Hexit & Hworld & Hwrites & _).
    repeat split; assumption.
  - intros s r.
    assert (Hpat : removeRegex_patterns s
                   = (Ret [[(Posix.Lit "z"%char, false); (Posix.AnyChar, true)]], s))
      by reflexivity.
    destruct (removeRegex_no_match_is_fatal s _ s Hpat) as [_ Hfiles].
    split; [reflexivity |]. split; [reflexivity |].
    destruct (Hfiles eq_refl ["/clip/apple.txt"; "/clip/banana.txt"]
                eq_refl eq_refl eq_refl eq_refl) as [Hexit _].
    exact Hexit.
Defined.


(** * Further properties of the handlers *)

(** [run], and the tests on what the calls returned. *)
Ltac step := run; cbn [negb andb orb]; run.

Section Accounting.
Context {P : Platform}.
Open Scope path_scope.
Open Scope list_scope.

Lemma outcomes_record_failure label ec s :
  outcomes (snd (record_failure label ec s)) = (outcomes s + 1)%N.
Proof.
  unfold outcomes. cbn. rewrite length_app. cbn. lia.
Qed.

Lemma outcomes_count_item s k t w :
  outcomes (with_successes (count_item k (successes s)) (with_world w (with_trace t s)))
  = (outcomes s + 1)%N.
Proof. unfold outcomes. cbn. rewrite total_count_item. lia. Qed.

(** An attempt of [copyItem] outside cut mode ends in one of two ways:
    it returns, and the item is counted; or it throws a file-system
    error, and nothing is counted. *)
Lemma actuallyCopyItem_outcome f u s :
  action s <> Cut ->
  let r := actuallyCopyItem f u s in
  match fst r with
  | Ret _ => outcomes (snd r) = (outcomes s + 1)%N
  | Throw (filesystem_error _) => outcomes (snd r) = outcomes s
  | _ => False
  end.
Proof.
  intros Hcut. cbv zeta.
  run_all; try congruence;
    unfold outcomes; cbn [copying successes]; rewrite ?total_count_item; lia.
Qed.

(** Outside cut mode [copyItem] returns, with exactly one more outcome,
    and leaves the configuration alone. *)
Lemma copyItem_outcome f s :
  action s <> Cut ->
  let r := copyItem f s in
  fst r = Ret tt /\
  outcomes (snd r) = (outcomes s + 1)%N /\
  action (snd r) = action s.
Proof.
  intros Hcut r.
  set (u := use_safe_copy (copying s)).
  assert (E : r = try_catch (actuallyCopyItem f u) (copyItem_catch f) s) by reflexivity.
  clearbody r. subst r. unfold try_catch.
  pose proof (actuallyCopyItem_outcome f u s Hcut) as H1.
  destruct (settled_actuallyCopyItem f u s) as (_ & _ & Ha1).
  cbv zeta in H1.
  destruct (actuallyCopyItem f u s) as [[[] | [ec |] | n] s1];
    cbn [fst snd] in *; try contradiction.
  1: repeat split; assumption.
  assert (Hcut1 : action s1 <> Cut) by congruence.
  assert (E : copyItem_catch f ec s1
              = if negb (use_safe_copy (copying s1)) && (ec =? cross_device_link)%Z
                then try_catch (actuallyCopyItem f true)
                       (fun ec' => record_failure f ec') s1
                else record_failure f ec s1).
  { unfold copyItem_catch, bind, gets.
    destruct (negb (use_safe_copy (copying s1)) && (ec =? cross_device_link)%Z);
      reflexivity. }
  rewrite E. clear E.
  destruct (negb (use_safe_copy (copying s1)) && (ec =? cross_device_link)%Z).
  - unfold try_catch.
    pose proof (actuallyCopyItem_outcome f true s1 Hcut1) as H2.
    destruct (settled_actuallyCopyItem f true s1) as (_ & _ & Ha2).
    cbv zeta in H2.
    destruct (actuallyCopyItem f true s1) as [[[] | [ec' |] | n] s2];
      cbn [fst snd] in *; try contradiction.
    + split; [reflexivity | split; congruence].
    + pose proof (outcomes_record_failure f ec' s2) as H3.
      split; [reflexivity | split]; [rewrite H3 | cbn]; congruence.
  - pose proof (outcomes_record_failure f ec s1) as H3.
    split; [reflexivity | split]; [rewrite H3 | cbn]; congruence.
Qed.

Lemma copyItem_loop_outcome its s :
  action s <> Cut ->
  fst (for_each its copyItem s) = Ret tt /\
  outcomes (snd (for_each its copyItem s)) = (outcomes s + N.of_nat (length its))%N.
Proof.
  revert s. induction its as [| f its IH]; intros s Hcut; cbn [for_each length].
  - cbn. split; [reflexivity | lia].
  - unfold bind.
    destruct (copyItem_outcome f s Hcut) as (H1 & H2 & H3).
    destruct (copyItem f s) as [o s1]. cbn [fst snd] in *. subst o.
    destruct (IH s1) as [H4 H5]; [congruence |].
    split; [exact H4 |]. rewrite H5, H2. lia.
Qed.

(** X1.  Outside cut mode, [copy] returns normally whatever the file
    system does, and every item of the batch yields exactly one outcome:
    the number of counted items plus the number of recorded failures
    grows by the number of items. *)
Theorem copy_accounts_for_every_item s :
  action s <> Cut ->
  let r := copy s in
  fst r = Ret tt /\
  outcomes (snd r) = (outcomes s + N.of_nat (length (items (copying s))))%N.
Proof.
  intros Hcut. cbv zeta. unfold copy, bind, gets.
  apply copyItem_loop_outcome. exact Hcut.
Qed.

(** X2.  In [copyItem], when the copy of a file fails with a code other
    than [cross_device_link], or with any code while safe copies are
    configured, there is no second attempt: one copy was requested, the
    failure is recorded under the item's path with that code, and
    nothing is counted. *)
Theorem copyItem_failure_recorded_without_retry f s ec w1 :
  let dst := data (path s) // filename f in
  let o := if use_safe_copy (copying s) then opts (copying s)
           else Z.lor (opts (copying s)) create_hard_links in
  fs_is_directory f (world s) = FsOk false ->
  fs_copy f dst o (world s) = (FsErr ec, w1) ->
  use_safe_copy (copying s) = true \/ ec <> cross_device_link ->
  let r := copyItem f s in
  fst r = Ret tt /\
  world (snd r) = w1 /\
  trace (snd r) = trace s ++ [EvIsDirectory f; EvCopy f dst o] /\
  failedItems (copying (snd r)) = failedItems (copying s) ++ [(f, ec)] /\
  successes (snd r) = successes s.
Proof.
  intros dst o Hdir Hcopy Hno r.
  pose proof (actuallyCopyItem_file_fails f (use_safe_copy (copying s)) s ec w1 Hdir Hcopy)
    as Hfirst.
  subst r. rewrite (copyItem_other_error_fails_at_once f s ec _ Hfirst Hno).
  cbn. repeat split.
Qed.



(** *** Safe copies *)

#[local] Instance plain_copies_frame : Frame plain_copies.
Proof.
  split.
  - intros s Hs. repeat split; trivial. exists []. split; [now rewrite app_nil_r | constructor].
  - intros a b c Hab Hbc Ha.
    destruct (Hab Ha) as (Hb & Ho & cs1 & H1 & F1).
    destruct (Hbc Hb) as (Hc & Ho' & cs2 & H2 & F2).
    repeat split; [assumption | congruence |].
    exists (cs1 ++ cs2). split.
    + now rewrite H2, H1, app_assoc.
    + apply Forall_app. split; [assumption |]. now rewrite <- Ho.
Qed.

(** Settles a call by cases, for [plain_copies]. *)
Ltac plain_call :=
  let s := fresh "s" in
  let Hs := fresh "Hs" in
  intros s Hs; run_all;
  (split; [exact Hs | split; [reflexivity |]]);
  unfold copies; rewrite ?filter_app; cbn [filter is_copy]; rewrite ?app_nil_r;
  solve [ exists []; split; [now rewrite app_nil_r | constructor]
        | eexists; split;
          [ reflexivity
          | repeat constructor; eexists; eexists; reflexivity ] ].

Lemma plain_pasteItem_safe entry target :
  stable plain_copies (pasteItem entry target true).
Proof. plain_call. Qed.

Lemma plain_actuallyCopyItem_safe f : stable plain_copies (actuallyCopyItem f true).
Proof. plain_call. Qed.

Lemma plain_record_failure label ec : stable plain_copies (record_failure label ec).
Proof. plain_call. Qed.

Lemma plain_pasteItem_default entry target :
  stable plain_copies (pasteItem_default entry target).
Proof.
  intros s Hs. unfold pasteItem_default, bind, gets. rewrite Hs.
  exact (plain_pasteItem_safe entry target s Hs).
Qed.

Lemma plain_paste_catch entry target ec :
  stable plain_copies (paste_catch entry target ec).
Proof.
  intros s Hs. unfold paste_catch, bind, gets. rewrite Hs.
  exact (plain_record_failure (filename entry) ec s Hs).
Qed.

Lemma plain_paste_entry regexes entry : stable plain_copies (paste_entry regexes entry).
Proof.
  unfold paste_entry, paste_try.
  repeat stable_step;
    auto using plain_pasteItem_default, plain_paste_catch; plain_call.
Qed.

Lemma plain_copyItem f : stable plain_copies (copyItem f).
Proof.
  intros s Hs.
  assert (E : copyItem f s
              = try_catch (actuallyCopyItem f true) (fun ec => record_failure f ec) s).
  { unfold copyItem, try_catch, bind at 1, gets at 1. rewrite Hs.
    destruct (settled_actuallyCopyItem f true s) as (Hc & _ & _).
    destruct (actuallyCopyItem f true s) as [[a | [ec |] | n] s1]; try reflexivity.
    cbn in Hc. unfold copyItem_catch, bind, gets. rewrite Hc, Hs. reflexivity. }
  rewrite E. revert s Hs E. intros s Hs _. revert s Hs.
  change (stable plain_copies
            (try_catch (actuallyCopyItem f true) (fun ec => record_failure f ec))).
  repeat stable_step; auto using plain_actuallyCopyItem_safe, plain_record_failure.
Qed.

(** X4.  With safe copies configured, neither [copy] nor the loop of
    [paste] ever asks for hard links: every [fs::copy] they request, for
    every item of the batch and whatever fails on the way, carries
    exactly the configured options. *)
Theorem safe_copy_requests_only_configured_options :
  (forall s,
     use_safe_copy (copying s) = true ->
     exists cs,
       copies (trace (snd (copy s))) = copies (trace s) ++ cs /\
       Forall (copy_with (opts (copying s))) cs)
  /\
  (forall regexes entries s,
     use_safe_copy (copying s) = true ->
     exists cs,
       copies (trace (snd (paste_loop regexes entries s))) = copies (trace s) ++ cs /\
       Forall (copy_with (opts (copying s))) cs).
Proof.
  split.
  - intros s Hs.
    assert (Hst : stable plain_copies copy).
    { unfold copy. repeat stable_step. apply plain_copyItem. }
    destruct (Hst s Hs) as (_ & _ & Hcs). exact Hcs.
  - intros regexes entries s Hs.
    assert (Hst : stable plain_copies (paste_loop regexes entries)).
    { unfold paste_loop. repeat stable_step. apply plain_paste_entry. }
    destruct (Hst s Hs) as (_ & _ & Hcs). exact Hcs.
Qed.

(** *** One iteration of [paste] on a target that does not exist *)

(** [pasteItem()] on a target that does not exist: what it asks, the one
    copy it requests, and how it ends. *)
Lemma pasteItem_default_fresh entry target s o r w1 :
  fs_exists target (world s) = FsOk false ->
  paste_options entry s = FsOk o ->
  fs_copy entry target o (world s) = (r, w1) ->
  let s1 := with_world w1
              (with_trace (trace s ++ paste_probe entry target s
                             ++ [EvCopy entry target o]) s) in
  pasteItem_default entry target s
  = match r with
    | FsOk _ => (Ret tt, with_successes (count_item (item_kind entry w1) (successes s)) s1)
    | FsErr ec => (Throw (filesystem_error ec), s1)
    end.
Proof.
  intros Hex Ho Hcopy s1. subst s1. unfold paste_options, paste_probe in *.
  run. destruct (use_safe_copy (copying s)).
  - injection Ho as <-. rewrite Hex. step. rewrite Hcopy.
    destruct r; unfold with_successes, with_world, with_trace; cbn;
      rewrite <- !app_assoc; reflexivity.
  - rewrite Hex. step.
    destruct (fs_is_directory entry (world s)) as [[|] | ec]; try discriminate;
      injection Ho as <-; step; rewrite Hcopy;
      destruct r; unfold with_successes, with_world, with_trace; cbn;
      rewrite <- !app_assoc; reflexivity.
Qed.

(** The retry, [pasteItem(true)], on a target that does not exist. *)
Lemma pasteItem_safe_fresh entry target s r w1 :
  fs_exists target (world s) = FsOk false ->
  fs_copy entry target (opts (copying s)) (world s) = (r, w1) ->
  let s1 := with_world w1
              (with_trace (trace s ++ [EvExists target;
                                       EvCopy entry target (opts (copying s))]) s) in
  pasteItem entry target true s
  = match r with
    | FsOk _ => (Ret tt, with_successes (count_item (item_kind entry w1) (successes s)) s1)
    | FsErr ec => (Throw (filesystem_error ec), s1)
    end.
Proof.
  intros Hex Hcopy s1. subst s1. run. rewrite Hex. step. rewrite Hcopy.
  destruct r; unfold with_successes, with_world, with_trace; cbn;
    rewrite <- !app_assoc; reflexivity.
Qed.

(** The loop body up to [pasteItem()], for an entry that passes the
    filter and whose target does not exist. *)
Lemma paste_entry_fresh regexes entry cwd s :
  let target := cwd // filename entry in
  fs_current_path (world s) = FsOk cwd ->
  filtered_out regexes entry = false ->
  fs_exists target (world s) = FsOk false ->
  paste_entry regexes entry s
  = try_catch (pasteItem_default entry target) (paste_catch entry target)
      (with_trace (trace s ++ [EvCurrentPath; EvExists target]) s).
Proof.
  intros target Hcwd Hf Hex. subst target. run_outer. rewrite Hcwd, Hf. run_outer.
  rewrite Hex. rewrite <- app_assoc. reflexivity.
Qed.

(** X5.  An entry that passes the filter, whose target does not exist
    and whose copy succeeds, is pasted once: one copy is requested, from
    the entry to the current directory under the entry's file name, the
    counter of its kind goes up by one, no failure is recorded, and
    neither the user nor the policy is involved. *)
Theorem paste_entry_to_fresh_target regexes entry cwd s o w1 :
  let target := cwd // filename entry in
  fs_current_path (world s) = FsOk cwd ->
  filtered_out regexes entry = false ->
  fs_exists target (world s) = FsOk false ->
  paste_options entry s = FsOk o ->
  fs_copy entry target o (world s) = (FsOk tt, w1) ->
  let r := paste_entry regexes entry s in
  fst r = Ret tt /\
  world (snd r) = w1 /\
  copies (trace (snd r)) = copies (trace s) ++ [EvCopy entry target o] /\
  prompts (trace (snd r)) = prompts (trace s) /\
  successes (snd r) = count_item (item_kind entry w1) (successes s) /\
  failedItems (copying (snd r)) = failedItems (copying s) /\
  policy (copying (snd r)) = policy (copying s).
Proof.
  intros target Hcwd Hf Hex Ho Hcopy r. subst r target.
  rewrite (paste_entry_fresh regexes entry cwd s Hcwd Hf Hex). unfold try_catch.
  set (target := cwd // filename entry) in *.
  set (s0 := with_trace (trace s ++ [EvCurrentPath; EvExists target]) s).
  rewrite (pasteItem_default_fresh entry target s0 o (FsOk tt) w1 Hex Ho Hcopy).
  subst s0.
  cbn [fst snd world trace successes copying with_successes with_world with_trace].
  unfold paste_probe. cbn [copying with_trace].
  repeat split.
  - rewrite !copies_app. cbn.
    destruct (use_safe_copy (copying s)); cbn; now rewrite ?app_nil_r.
  - rewrite !prompts_app. cbn.
    destruct (use_safe_copy (copying s)); cbn; now rewrite ?app_nil_r.
Qed.

(** X6.  In [paste] with fast copies, when the first attempt at an entry
    fails, with whatever code, and the second attempt fails too, the
    entry ends with exactly one recorded failure: it is filed under the
    entry's file name and carries the code of the second attempt, the
    first being dropped.  Two copies were requested, the second with the
    configured options, and nothing is counted. *)
Theorem paste_entry_both_attempts_fail regexes entry cwd s o ec1 w1 ec2 w2 :
  let target := cwd // filename entry in
  use_safe_copy (copying s) = false ->
  fs_current_path (world s) = FsOk cwd ->
  filtered_out regexes entry = false ->
  fs_exists target (world s) = FsOk false ->
  paste_options entry s = FsOk o ->
  fs_copy entry target o (world s) = (FsErr ec1, w1) ->
  fs_exists target w1 = FsOk false ->
  fs_copy entry target (opts (copying s)) w1 = (FsErr ec2, w2) ->
  let r := paste_entry regexes entry s in
  fst r = Ret tt /\
  world (snd r) = w2 /\
  copies (trace (snd r))
  = copies (trace s) ++ [EvCopy entry target o; EvCopy entry target (opts (copying s))] /\
  failedItems (copying (snd r)) = failedItems (copying s) ++ [(filename entry, ec2)] /\
  successes (snd r) = successes s.
Proof.
  intros target Hsafe Hcwd Hf Hex Ho Hcopy Hex1 Hcopy1 r.
  assert (Hr : r = paste_entry regexes entry s) by reflexivity. clearbody r.
  subst target.
  rewrite (paste_entry_fresh regexes entry cwd s Hcwd Hf Hex) in Hr.
  unfold try_catch at 1 in Hr.
  set (target := cwd // filename entry) in *.
  set (s0 := with_trace (trace s ++ [EvCurrentPath; EvExists target]) s) in Hr.
  rewrite (pasteItem_default_fresh entry target s0 o (FsErr ec1) w1 Hex Ho Hcopy) in Hr.
  set (s1 := with_world w1 _) in Hr.
  rewrite (paste_catch_retries_whatever_the_error entry target ec1 s1 Hsafe) in Hr.
  unfold try_catch in Hr.
  rewrite (pasteItem_safe_fresh entry target s1 (FsErr ec2) w2 Hex1 Hcopy1) in Hr.
  subst r s1 s0. unfold paste_probe.
  cbn [fst snd world trace successes copying failedItems record_failure modify
       with_copying with_failedItems with_world with_trace].
  rewrite Hsafe. repeat split.
  rewrite !copies_app. cbn. now rewrite ?app_nil_r, <- !app_assoc.
Qed.

(** X7.  [paste] never hard-links a directory: for a staged directory
    whose target does not exist, [pasteItem] requests one copy with
    exactly the configured options, in the first attempt as in the
    retry, with fast copies configured or not. *)
Theorem pasteItem_directory_is_copied_in_full entry target (u : bool) s :
  fs_exists target (world s) = FsOk false ->
  fs_is_directory entry (world s) = FsOk true ->
  copies (trace (snd (pasteItem entry target u s)))
  = copies (trace s) ++ [EvCopy entry target (opts (copying s))].
Proof.
  intros Hex Hdir. run. rewrite Hex. step.
  destruct u; step; rewrite ?Hdir; step;
    destruct (fs_copy entry target (opts (copying s)) (world s)) as [[[] | ec] w1];
    cbn; rewrite !copies_app; cbn; now rewrite ?app_nil_r, <- ?app_assoc.
Qed.

(** *** Outcomes of the loop of [paste] *)

Lemma pasteItem_outcome entry target u s :
  let r := pasteItem entry target u s in
  match fst r with
  | Ret _ => outcomes (snd r) = (outcomes s + 1)%N
  | Throw (filesystem_error _) => outcomes (snd r) = outcomes s
  | _ => False
  end.
Proof.
  cbv zeta.
  run_all; unfold outcomes; cbn [copying successes]; rewrite ?total_count_item; lia.
Qed.

Lemma paste_catch_outcome entry target ec s :
  fst (paste_catch entry target ec s) = Ret tt /\
  outcomes (snd (paste_catch entry target ec s)) = (outcomes s + 1)%N.
Proof.
  unfold paste_catch, bind, gets.
  destruct (use_safe_copy (copying s)); cbn [negb].
  - split; [reflexivity | apply outcomes_record_failure].
  - unfold try_catch.
    pose proof (pasteItem_outcome entry target true s) as H. cbv zeta in H.
    destruct (pasteItem entry target true s) as [[[] | [ec' |] | n] s2];
      cbn [fst snd] in *; try contradiction.
    + split; [reflexivity | exact H].
    + split; [reflexivity |]. rewrite outcomes_record_failure. congruence.
Qed.

(** An attempt of [paste], retry included, returns with exactly one more
    outcome. *)
Lemma paste_attempt_outcome entry target s :
  let r := try_catch (pasteItem_default entry target) (paste_catch entry target) s in
  fst r = Ret tt /\ outcomes (snd r) = (outcomes s + 1)%N.
Proof.
  intros r.
  assert (E : r = match pasteItem entry target (use_safe_copy (copying s)) s with
                  | (Throw (filesystem_error ec), s') => paste_catch entry target ec s'
                  | x => x
                  end) by reflexivity.
  clearbody r. subst r.
  pose proof (pasteItem_outcome entry target (use_safe_copy (copying s)) s) as H.
  cbv zeta in H.
  destruct (pasteItem entry target (use_safe_copy (copying s)) s)
    as [[[] | [ec |] | n] s1]; cbn [fst snd] in *; try contradiction.
  - split; [reflexivity | exact H].
  - destruct (paste_catch_outcome entry target ec s1) as [H1 H2].
    split; [exact H1 | congruence].
Qed.

(** The loop body when the existence test itself throws, and under
    [ReplaceAll]. *)
Lemma paste_entry_exists_fails regexes entry cwd s ec :
  let target := cwd // filename entry in
  fs_current_path (world s) = FsOk cwd ->
  filtered_out regexes entry = false ->
  fs_exists target (world s) = FsErr ec ->
  paste_entry regexes entry s
  = paste_catch entry target ec
      (with_trace (trace s ++ [EvCurrentPath; EvExists target]) s).
Proof.
  intros target Hcwd Hf Hex. subst target. run_outer. rewrite Hcwd, Hf. run_outer.
  rewrite Hex. rewrite <- app_assoc. reflexivity.
Qed.

Lemma paste_entry_ReplaceAll regexes entry cwd s :
  let target := cwd // filename entry in
  fs_current_path (world s) = FsOk cwd ->
  filtered_out regexes entry = false ->
  fs_exists target (world s) = FsOk true ->
  policy (copying s) = ReplaceAll ->
  paste_entry regexes entry s
  = try_catch (pasteItem_default entry target) (paste_catch entry target)
      (with_trace (trace s ++ [EvCurrentPath; EvExists target]) s).
Proof.
  intros target Hcwd Hf Hex Hpol. subst target. run_outer. rewrite Hcwd, Hf. run_outer.
  rewrite Hex. run_outer. rewrite Hpol. rewrite <- app_assoc. reflexivity.
Qed.

(** Once the user has answered, what is left returns with at most one
    more outcome. *)
Lemma paste_entry_outcome_asked entry target d s :
  let r := after_answer entry target d (asked entry target s) in
  fst r = Ret tt /\
  (outcomes s <= outcomes (snd r) <= outcomes s + 1)%N.
Proof.
  intros r.
  assert (H0 : outcomes (asked entry target s) = outcomes s).
  { unfold asked. destruct (user_decision (filename entry) (world s)). reflexivity. }
  subst r. unfold after_answer.
  destruct d;
    try (destruct (paste_attempt_outcome entry target (asked entry target s)) as [H1 H2];
         split; [assumption | lia]);
    (unfold try_catch, ret; cbn [fst snd]; split; [reflexivity | lia]).
Qed.

(** One iteration yields at most one outcome, and lets no exception out
    once the target is computed. *)
Lemma paste_entry_outcome regexes entry s :
  let r := paste_entry regexes entry s in
  (fst r = Ret tt \/
   exists ec, fs_current_path (world s) = FsErr ec /\ fst r = Throw (filesystem_error ec)) /\
  (outcomes s <= outcomes (snd r) <= outcomes s + 1)%N.
Proof.
  intros r.
  destruct (fs_current_path (world s)) as [cwd | ec] eqn:Hcwd.
  2: { subst r. unfold paste_entry, bind, query. rewrite Hcwd. cbn.
       split; [right; eauto | unfold outcomes; cbn; lia]. }
  destruct (filtered_out regexes entry) eqn:Hf.
  { subst r. unfold paste_entry, bind, query. rewrite Hcwd, Hf. cbn.
    split; [now left | unfold outcomes; cbn; lia]. }
  set (target := cwd // filename entry).
  set (s0 := with_trace (trace s ++ [EvCurrentPath; EvExists target]) s).
  assert (H0 : outcomes s0 = outcomes s) by reflexivity.
  destruct (fs_exists target (world s)) as [[|] | ec] eqn:Hex.
  - destruct (policy (copying s)) eqn:Hpol.
    + subst r. rewrite (paste_entry_ReplaceAll regexes entry cwd s Hcwd Hf Hex Hpol).
      destruct (paste_attempt_outcome entry target s0) as [H1 H2].
      fold target s0. split; [now left | lia].
    + subst r. rewrite (paste_entry_ask regexes entry cwd s Hcwd Hf Hex)
        by now rewrite Hpol.
      destruct (paste_entry_outcome_asked entry target
                  (fst (user_decision (filename entry) (world s))) s) as [H1 H2].
      fold target. split; [now left | exact H2].
    + subst r. rewrite (paste_entry_ask regexes entry cwd s Hcwd Hf Hex)
        by now rewrite Hpol.
      destruct (paste_entry_outcome_asked entry target
                  (fst (user_decision (filename entry) (world s))) s) as [H1 H2].
      fold target. split; [now left | exact H2].
    + subst r. rewrite (paste_entry_SkipAll regexes entry cwd s Hcwd Hf Hex Hpol).
      cbn. split; [now left | unfold outcomes; cbn; lia].
    + subst r. rewrite (paste_entry_ask regexes entry cwd s Hcwd Hf Hex)
        by now rewrite Hpol.
      destruct (paste_entry_outcome_asked entry target
                  (fst (user_decision (filename entry) (world s))) s) as [H1 H2].
      fold target. split; [now left | exact H2].
  - subst r. rewrite (paste_entry_fresh regexes entry cwd s Hcwd Hf Hex).
    destruct (paste_attempt_outcome entry target s0) as [H1 H2].
    fold target s0. split; [now left | lia].
  - subst r. rewrite (paste_entry_exists_fails regexes entry cwd s ec Hcwd Hf Hex).
    destruct (paste_catch_outcome entry target ec s0) as [H1 H2].
    fold target s0. split; [now left | lia].
Qed.

(** X8.  The loop of [paste] yields at most one outcome for each staged
    entry: the number of counted items plus recorded failures never goes
    down and grows by no more than the number of entries.  The loop
    returns normally unless [fs::current_path] throws, the only error
    that is not handled inside the loop body. *)
Theorem paste_loop_outcomes_bounded regexes entries s :
  let r := paste_loop regexes entries s in
  (fst r = Ret tt \/ exists ec, fst r = Throw (filesystem_error ec)) /\
  (outcomes s <= outcomes (snd r) <= outcomes s + N.of_nat (length entries))%N.
Proof.
  cbv zeta. unfold paste_loop. revert s.
  induction entries as [| entry entries IH]; intros s; cbn [for_each length].
  - cbn. split; [now left | lia].
  - unfold bind.
    destruct (paste_entry_outcome regexes entry s) as [Hout Hbound].
    destruct (paste_entry regexes entry s) as [o s1]. cbn [fst snd] in *.
    destruct Hout as [-> | (ec & _ & ->)].
    + destruct (IH s1) as [H1 H2]. split; [exact H1 | lia].
    + cbn. split; [right; eauto | lia].
Qed.

(** *** Entries the loop passes over *)

#[local] Instance untouched_frame : Frame untouched.
Proof.
  split.
  - intros s. repeat split.
  - intros a b c (H1 & H2 & H3 & H4 & H5) (H6 & H7 & H8 & H9 & H10).
    repeat split; congruence.
Qed.

Lemma paste_entry_passed_over regexes entry cwd s :
  fs_current_path (world s) = FsOk cwd ->
  passed_over regexes cwd s entry ->
  fst (paste_entry regexes entry s) = Ret tt /\
  untouched s (snd (paste_entry regexes entry s)).
Proof.
  intros Hcwd [Hf | [Hpol Hex]].
  - unfold paste_entry, bind, query. rewrite Hcwd, Hf. cbn.
    split; [reflexivity |]. repeat split; cbn.
    + rewrite writes_app. cbn. apply app_nil_r.
    + rewrite prompts_app. cbn. apply app_nil_r.
  - destruct (filtered_out regexes entry) eqn:Hf.
    + unfold paste_entry, bind, query. rewrite Hcwd, Hf. cbn.
      split; [reflexivity |]. repeat split; cbn.
      * rewrite writes_app. cbn. apply app_nil_r.
      * rewrite prompts_app. cbn. apply app_nil_r.
    + rewrite (paste_entry_SkipAll regexes entry cwd s Hcwd Hf Hex Hpol). cbn.
      split; [reflexivity |]. repeat split; cbn.
      * rewrite writes_app. cbn. apply app_nil_r.
      * rewrite prompts_app. cbn. apply app_nil_r.
Qed.

(** X9.  A batch in which every entry is passed over changes nothing.
    If each staged entry is rejected by the filter or, the policy being
    [SkipAll], has a target that exists, the loop of [paste] returns
    normally and leaves the file system, the counters, the failure list
    and the policy as they were; it requests no copy and asks the user
    nothing.  In particular patterns that match no entry are not an
    error for [paste]. *)
Theorem paste_loop_passing_over_changes_nothing regexes entries cwd s :
  fs_current_path (world s) = FsOk cwd ->
  Forall (passed_over regexes cwd s) entries ->
  let r := paste_loop regexes entries s in
  fst r = Ret tt /\
  world (snd r) = world s /\
  copying (snd r) = copying s /\
  successes (snd r) = successes s /\
  writes (trace (snd r)) = writes (trace s) /\
  prompts (trace (snd r)) = prompts (trace s).
Proof.
  intros Hcwd Hall. cbv zeta. unfold paste_loop.
  assert (H : fst (for_each entries (paste_entry regexes) s) = Ret tt /\
              untouched s (snd (for_each entries (paste_entry regexes) s))).
  { revert s Hcwd Hall.
    induction entries as [| entry entries IH]; intros s Hcwd Hall; cbn [for_each].
    - split; [reflexivity | apply frame_refl].
    - inversion Hall as [| ? ? Hentry Hrest]; subst.
      destruct (paste_entry_passed_over regexes entry cwd s Hcwd Hentry) as [H1 H2].
      unfold bind.
      destruct (paste_entry regexes entry s) as [o s1]. cbn [fst snd] in *. subst o.
      destruct H2 as (Hw & Hc & Hrest2).
      destruct (IH s1) as [H3 H4].
      + now rewrite Hw.
      + eapply Forall_impl; [| exact Hrest].
        intros e He. unfold passed_over in *. now rewrite Hw, Hc.
      + split; [exact H3 |].
        eapply frame_trans; [| exact H4]. repeat split; tauto. }
  destruct H as [H1 (H2 & H3 & H4 & H5 & H6)]. repeat split; assumption.
Qed.

(** X10.  Two errors of [paste] are raised outside the [try] block of the
    loop and are not handled: a failure to open the staging directory,
    and a failure of [fs::current_path] while the target of an entry is
    computed, which happens before the filter is looked at.  In both
    cases the exception leaves [paste]: nothing is recorded in the
    failure list, the remaining entries are not visited and
    [removeOldFiles] is not called. *)
Theorem paste_errors_outside_the_try_escape removeOldFiles regexes s :
  compile_list (items (copying s)) = Some regexes ->
  let d := data (path s) in
  (forall ec,
     fs_directory_iterator d (world s) = FsErr ec ->
     paste removeOldFiles s
     = (Throw (filesystem_error ec), with_trace (trace s ++ [EvDirectoryIterator d]) s))
  /\
  (forall ec entry rest,
     fs_directory_iterator d (world s) = FsOk (entry :: rest) ->
     fs_current_path (world s) = FsErr ec ->
     paste removeOldFiles s
     = (Throw (filesystem_error ec),
        with_trace (trace s ++ [EvDirectoryIterator d; EvCurrentPath]) s)).
Proof.
  intros Hcompile d. subst d.
  assert (Hpat : (match items (copying s) with
                  | [] => ret []
                  | _ => compile_all (items (copying s))
                  end) s = (Ret regexes, s)).
  { unfold compile_all. rewrite Hcompile.
    destruct (items (copying s)); [| reflexivity].
    cbn in Hcompile. injection Hcompile as <-. reflexivity. }
  split.
  - intros ec Hiter. unfold paste, bind at 1, gets at 1. unfold bind at 1.
    rewrite Hpat. unfold bind, gets, query. rewrite Hiter. reflexivity.
  - intros ec entry rest Hiter Hcwd. unfold paste, bind at 1, gets at 1. unfold bind at 1.
    rewrite Hpat. unfold bind at 1, gets at 1, bind at 1, query at 1. rewrite Hiter.
    unfold bind at 1, paste_loop. cbn [for_each]. unfold bind at 1, paste_entry at 1.
    unfold bind at 1, query at 1. cbn [world with_trace]. rewrite Hcwd.
    unfold with_trace. cbn. now rewrite <- app_assoc.
Qed.

(** *** Nothing recorded is lost *)

#[local] Instance additive_frame : Frame additive.
Proof.
  split.
  - intros s. repeat split; try lia. exists []. now rewrite app_nil_r.
  - intros a b c (H1 & H2 & H3 & n1 & H4) (H5 & H6 & H7 & n2 & H8).
    repeat split; try lia. exists (n1 ++ n2). now rewrite H8, H4, app_assoc.
Qed.

Ltac additive_call :=
  stable_call; unfold count_item;
  repeat match goal with
         | |- context [match ?x with _ => _ end] => destruct x
         end;
  repeat split; cbn;
  first [ lia | exists []; now rewrite app_nil_r | eexists; reflexivity ].

Lemma additive_pasteItem entry target u : stable additive (pasteItem entry target u).
Proof. unfold pasteItem. repeat stable_step; additive_call. Qed.

Lemma additive_actuallyCopyItem f u : stable additive (actuallyCopyItem f u).
Proof. unfold actuallyCopyItem. repeat stable_step; additive_call. Qed.

Lemma additive_compile_all l : stable additive (compile_all l).
Proof. unfold compile_all. repeat stable_step. Qed.

(** X11.  [copy], the loop of [paste] and [removeRegex] only ever add to
    what has been recorded: from any state and whatever the file system
    and the user do, no counter goes down, and the failures recorded
    before are all still there, in the same order, at the head of the
    failure list. *)
Theorem handlers_only_add_outcomes :
  (forall s, additive s (snd (copy s))) /\
  (forall regexes entries s, additive s (snd (paste_loop regexes entries s))) /\
  (forall s, additive s (snd (removeRegex s))).
Proof.
  split; [| split].
  - change (stable additive copy).
    unfold copy, copyItem, copyItem_catch.
    repeat stable_step; auto using additive_actuallyCopyItem; additive_call.
  - intros regexes entries. change (stable additive (paste_loop regexes entries)).
    unfold paste_loop, paste_entry, paste_try, paste_catch, pasteItem_default.
    repeat stable_step; auto using additive_pasteItem; additive_call.
  - change (stable additive removeRegex).
    unfold removeRegex, removeRegex_patterns, removeRegex_text, removeRegex_files,
      remove_if_match.
    repeat stable_step; auto using additive_compile_all; additive_call.
Qed.

(** *** [removeRegex] on staged files *)

(** When [fs::remove_all] does not throw, one pattern costs one success
    if it matches, and the loop over the patterns as many as match. *)
Lemma remove_patterns_counted entry regexes s :
  (forall p w, exists n w', fs_remove_all p w = (FsOk n, w')) ->
  let r := for_each regexes (remove_if_match entry) s in
  fst r = Ret tt /\
  total (successes (snd r))
  = (total (successes s) + N.of_nat (matching_patterns entry regexes))%N /\
  copying (snd r) = copying s.
Proof.
  intros Hok. cbv zeta. revert s.
  induction regexes as [| pattern regexes IH]; intros s;
    unfold matching_patterns in *; cbn [for_each filter length].
  - cbn. repeat split. lia.
  - unfold bind. rewrite remove_if_match_step.
    destruct (regex_match (filename entry) pattern); [| apply IH].
    destruct (Hok entry (world s)) as (n & w' & Hrm). rewrite Hrm.
    match goal with
    | |- context [for_each regexes _ ?s1] => destruct (IH s1) as (H1 & H2 & H3)
    end.
    cbn [successes copying with_successes with_world with_trace] in H2, H3.
    repeat split; auto. rewrite H2, total_count_item. cbn [length]. lia.
Qed.

Lemma remove_entries_counted entries regexes s :
  (forall p w, exists n w', fs_remove_all p w = (FsOk n, w')) ->
  let r := for_each entries (fun entry => for_each regexes (remove_if_match entry)) s in
  fst r = Ret tt /\
  total (successes (snd r))
  = (total (successes s) + N.of_nat (matching_pairs entries regexes))%N /\
  copying (snd r) = copying s.
Proof.
  intros Hok. cbv zeta. revert s.
  induction entries as [| entry entries IH]; intros s; cbn [for_each matching_pairs].
  - cbn. repeat split. lia.
  - unfold bind.
    destruct (remove_patterns_counted entry regexes s Hok) as (H1 & H2 & H3).
    destruct (for_each regexes (remove_if_match entry) s) as [o s1].
    cbn [fst snd] in H1, H2, H3. subst o.
    destruct (IH s1) as (H4 & H5 & H6).
    repeat split; auto; [| congruence]. rewrite H5, H2. lia.
Qed.

(** X12.  In the file branch of [removeRegex], when [fs::remove_all]
    does not throw, every pair of a staged entry and a pattern that
    matches its whole file name is counted as one removed item: an entry
    that several patterns match is counted once for each of them.  If
    there is at least one such pair the handler returns normally, and no
    failure is recorded. *)
Theorem removeRegex_files_counts_every_matching_pattern regexes entries s :
  (forall p w, exists n w', fs_remove_all p w = (FsOk n, w')) ->
  fs_directory_iterator (data (path s)) (world s) = FsOk entries ->
  matching_pairs entries regexes <> 0 ->
  let r := removeRegex_files regexes s in
  fst r = Ret tt /\
  total (successes (snd r))
  = (total (successes s) + N.of_nat (matching_pairs entries regexes))%N /\
  failedItems (copying (snd r)) = failedItems (copying s).
Proof.
  intros Hok Hiter Hsome r.
  set (s2 := with_trace (trace s ++ [EvDirectoryIterator (data (path s))]) s).
  destruct (remove_entries_counted entries regexes s2 Hok) as (H1 & H2 & H3).
  assert (Hr : r = (let (o, s3) := for_each entries
                                     (fun entry => for_each regexes (remove_if_match entry)) s2 in
                    match o with
                    | Ret _ =>
                        if (directories (successes s3) =? 0)%N
                           && (files (successes s3) =? 0)%N
                        then (Exit EXIT_FAILURE,
                              with_trace (trace s3 ++ [EvNoMatchMessage]) s3)
                        else (Ret tt, s3)
                    | Throw e => (Throw e, s3)
                    | Exit n => (Exit n, s3)
                    end)).
  { subst r. unfold removeRegex_files, bind at 1, gets at 1, bind at 1, query at 1.
    rewrite Hiter. fold s2. unfold bind at 1.
    destruct (for_each entries (fun entry => for_each regexes (remove_if_match entry)) s2)
      as [[[] | e | n] s3]; try reflexivity.
    unfold bind, gets, no_match_message, log, modify, exit.
    destruct ((directories (successes s3) =? 0)%N && (files (successes s3) =? 0)%N);
      reflexivity. }
  clearbody r. subst r.
  destruct (for_each entries (fun entry => for_each regexes (remove_if_match entry)) s2)
    as [o s3].
  cbn [fst snd] in H1, H2, H3. subst o.
  change (successes s2) with (successes s) in H2.
  change (copying s2) with (copying s) in H3.
  assert (Hpos : (total (successes s3) <> 0)%N) by lia.
  unfold total in Hpos.
  destruct ((directories (successes s3) =? 0)%N && (files (successes s3) =? 0)%N) eqn:Hz.
  - apply andb_true_iff in Hz. destruct Hz as [Hd Hf].
    apply N.eqb_eq in Hd, Hf. lia.
  - cbn. repeat split; [exact H2 | now rewrite H3].
Qed.

(** *** [removeRegex] on text *)

(** X13.  In the text branch of [removeRegex], when applying the
    patterns one after the other changes the length of the content, the
    handler returns normally after writing the new content over the raw
    file, once and not in append mode; the byte counter grows by the
    difference of the lengths and the other counters do not move. *)
Theorem removeRegex_text_rewrites_the_content s regexes s1 :
  removeRegex_patterns s = (Ret regexes, s1) ->
  let raw := data_raw (path s1) in
  let content := file_contents raw (world s1) in
  let content' := fold_left (fun c pattern => regex_replace c pattern "") regexes content in
  fs_is_regular_file raw (world s1) = FsOk true ->
  String.length content' <> String.length content ->
  let r := removeRegex s in
  fst r = Ret tt /\
  trace (snd r)
  = trace s1 ++ [EvIsRegularFile raw; EvFileContents raw; EvWriteToFile raw content' false] /\
  world (snd r) = snd (write_file raw content' false (world s1)) /\
  bytes (successes (snd r))
  = (bytes (successes s1) + size_t_sub (String.length content) (String.length content'))%N /\
  files (successes (snd r)) = files (successes s1) /\
  directories (successes (snd r)) = directories (successes s1).
Proof.
  intros Hpat raw content content' Hreg Hlen r.
  assert (Hr : r = (text <- query (EvIsRegularFile raw) (fs_is_regular_file raw) ;;
                    if text then removeRegex_text regexes
                    else removeRegex_files regexes) s1).
  { subst r. unfold removeRegex, bind at 1. rewrite Hpat. reflexivity. }
  clearbody r. subst r. subst content' content raw. run. rewrite Hreg. run.
  apply Nat.eqb_neq in Hlen. rewrite Nat.eqb_sym in Hlen. rewrite Hlen. step.
  destruct (write_file _ _ false (world s1)) as [n w']. cbn.
  rewrite <- !app_assoc. repeat split.
Qed.

(** X14.  A pattern that does not compile stops [removeRegex] before it
    looks at the clipboard.  With the patterns taken from the items, the
    handler throws [std::regex_error] and the state is what it was; with
    the pattern taken from the pipe, the pipe has been read and nothing
    else was done. *)
Theorem removeRegex_invalid_pattern_aborts s :
  (io_type s <> Pipe ->
   (exists pattern, In pattern (items (copying s)) /\ regex_compile pattern = None) ->
   removeRegex s = (Throw regex_error, s))
  /\
  (io_type s = Pipe ->
   regex_compile (fst (piped_in_content (world s))) = None ->
   removeRegex s
   = (Throw regex_error,
      with_world (snd (piped_in_content (world s)))
        (with_trace (trace s ++ [EvPipedInContent]) s))).
Proof.
  split.
  - intros Hio Hbad. pose proof (compile_list_invalid _ Hbad) as Hnone.
    unfold removeRegex, removeRegex_patterns, bind, gets, compile_all.
    destruct (io_type s); try congruence; rewrite Hnone; reflexivity.
  - intros Hio Hbad.
    unfold removeRegex, removeRegex_patterns, bind, gets, pipedInContent.
    rewrite Hio. destruct (piped_in_content (world s)) as [c w']. cbn in *.
    rewrite Hbad. reflexivity.
Qed.

End Accounting.

Section MoreProperties.
Context {P : Platform} {C : Console} {B : Clipboards}.
Open Scope path_scope.
Open Scope list_scope.

(** X15.  [addFiles] refuses a clipboard that holds text: it prints its
    error message and ends the process with [EXIT_FAILURE] before any
    item is looked at, so nothing is copied, counted or recorded.  On
    any other clipboard, outside cut mode, it returns normally and every
    item yields exactly one outcome, a counted item or a recorded
    failure. *)
Theorem addFiles_refuses_text_else_accounts_for_every_item s :
  let raw := data_raw (path s) in
  let r := addFiles s in
  (fs_is_regular_file raw (world s) = FsOk true ->
   fst r = Exit EXIT_FAILURE /\
   world (snd r) = fputs_stderr (replaceColors add_items_to_text_message) (world s) /\
   trace (snd r) = trace s ++ [EvIsRegularFile raw] /\
   copying (snd r) = copying s /\
   successes (snd r) = successes s)
  /\
  (fs_is_regular_file raw (world s) = FsOk false ->
   action s <> Cut ->
   fst r = Ret tt /\
   outcomes (snd r) = (outcomes s + N.of_nat (length (items (copying s))))%N).
Proof.
  intros raw r. split.
  - intros Hreg. subst r raw. unfold addFiles, bind, gets, query, tell, modify, exit.
    rewrite Hreg. cbn. repeat split.
  - intros Hreg Hcut.
    set (s0 := with_trace (trace s ++ [EvIsRegularFile raw]) s).
    assert (Hr : r = for_each (items (copying s)) copyItem s0).
    { subst r raw. unfold addFiles, bind at 1, gets at 1, bind at 1, query at 1.
      rewrite Hreg. reflexivity. }
    rewrite Hr. apply (copyItem_loop_outcome (items (copying s)) s0). exact Hcut.
Qed.

(** *** [load] *)

#[local] Instance counts_nothing_frame : Frame counts_nothing.
Proof.
  split.
  - intros s. repeat split.
  - intros a b c (H1 & H2 & H3) (H4 & H5 & H6). repeat split; congruence.
Qed.

(** One destination: whatever happens in the destination, the loop body
    returns, counts nothing, and records at most one failure, under the
    name of the destination. *)
Lemma load_into_outcome name s :
  (forall n w, exists c w', open_clipboard n w = (FsOk c, w')) ->
  let r := load_into name s in
  fst r = Ret tt /\
  successes (snd r) = successes s /\
  path (snd r) = path s /\
  (failedItems (copying (snd r)) = failedItems (copying s) \/
   exists ec, failedItems (copying (snd r)) = failedItems (copying s) ++ [(name, ec)]).
Proof.
  intros Hopen r.
  destruct (Hopen name (world s)) as (c & w' & Ho).
  set (s0 := with_world w' s).
  set (body := (entries <- query (EvDirectoryIterator (data c))
                             (fs_directory_iterator (data c)) ;;
                for_each entries
                  (fun entry => effect (EvRemoveAll entry) (fs_remove_all entry) ;; ret tt) ;;
                src <- gets (fun s => data (path s)) ;;
                effect (EvCopy src (data c) recursive) (fs_copy src (data c) recursive))).
  assert (Hbody : stable counts_nothing body).
  { subst body. repeat stable_step; stable_call; repeat split. }
  destruct (Hbody s0) as (H1 & H2 & H3).
  assert (Hshape : match fst (body s0) with
                   | Ret _ | Throw (filesystem_error _) => True
                   | _ => False
                   end).
  { subst body. unfold bind at 1, query at 1.
    destruct (fs_directory_iterator (data c) (world s0)) as [entries | ec]; cbn; trivial.
    unfold bind at 1.
    assert (Hloop : forall entries s1,
               match fst (for_each entries
                            (fun entry => effect (EvRemoveAll entry) (fs_remove_all entry) ;;
                                          ret tt) s1) with
               | Ret _ | Throw (filesystem_error _) => True
               | _ => False
               end).
    { induction entries0 as [| e es IH]; intros s1; cbn [for_each]; [exact I |].
      unfold bind at 1, bind at 1, effect at 1.
      destruct (fs_remove_all e (world s1)) as [[n | ec] w1]; cbn; [apply IH | exact I]. }
    specialize (Hloop entries
                  (with_trace (trace s0 ++ [EvDirectoryIterator (data c)]) s0)).
    destruct (for_each entries _ _) as [[[] | [ec |] | n] s2]; cbn in Hloop |- *;
      try contradiction; trivial.
    unfold bind, gets, effect.
    destruct (fs_copy _ _ recursive (world s2)) as [[[] | ec] w2]; cbn; trivial. }
  assert (Hr : r = try_catch body (fun ec => record_failure name ec) s0).
  { subst r. unfold load_into, bind at 1, act. rewrite Ho. reflexivity. }
  clearbody r. subst r. unfold try_catch.
  destruct (body s0) as [[[] | [ec |] | n] s1]; cbn [fst snd] in *; try contradiction.
  - split; [reflexivity |]. split; [exact H1 |]. split; [exact H3 |].
    left. now rewrite H2.
  - cbn. split; [reflexivity |]. split; [exact H1 |]. split; [exact H3 |].
    right. exists ec. now rewrite H2.
Qed.

Lemma load_loop_outcome destinations s :
  (forall n w, exists c w', open_clipboard n w = (FsOk c, w')) ->
  let r := for_each destinations load_into s in
  fst r = Ret tt /\
  successes (snd r) = successes s /\
  path (snd r) = path s /\
  exists new,
    failedItems (copying (snd r)) = failedItems (copying s) ++ new /\
    length new <= length destinations /\
    Forall (fun failure => In (fst failure) destinations) new.
Proof.
  intros Hopen. cbv zeta. revert s.
  induction destinations as [| name rest IH]; intros s; cbn [for_each].
  - cbn. repeat split. exists []. rewrite app_nil_r. repeat split; auto.
  - unfold bind.
    destruct (load_into_outcome name s Hopen) as (H1 & H2 & H3 & H4).
    destruct (load_into name s) as [o s1]. cbn [fst snd] in *. subst o.
    destruct (IH s1) as (H5 & H6 & H7 & new & H8 & H9 & H10).
    repeat split; try congruence.
    assert (Hin : Forall (fun failure => In (fst failure) (name :: rest)) new).
    { eapply Forall_impl; [| exact H10]. intros a Ha. now right. }
    destruct H4 as [H4 | [ec H4]].
    + exists new. rewrite H8, H4. repeat split; auto. cbn. lia.
    + exists ((name, ec) :: new). rewrite H8, H4, <- app_assoc. repeat split.
      * cbn. lia.
      * constructor; [now left | exact Hin].
Qed.

(** The guards of [load], run up to the next call. *)
Ltac load_start :=
  unfold load, bind, gets, query, ask, tell, modify, exit, ret, stopIndicator, log;
  cbn [world copying items with_trace with_world fst snd negb orb].

(** X16.  [load] refuses, before it opens or changes any clipboard, in
    three cases: the data directory of the source does not exist; it
    exists and is empty; or the name of the current clipboard is among
    the destinations, the default clipboard standing for an empty list
    of items.  In each case the handler prints a message and ends the
    process with [EXIT_FAILURE]; no destination is opened, emptied or
    copied to, and nothing is counted or recorded. *)
Theorem load_refuses_before_touching_any_clipboard s :
  let d := data (path s) in
  let r := load s in
  (fs_exists d (world s) = FsOk false ->
   refused load_from_empty_message [EvExists d] s r)
  /\
  (fs_exists d (world s) = FsOk true ->
   fs_is_empty d (world s) = FsOk true ->
   refused load_from_empty_message [EvExists d] s r)
  /\
  (fs_exists d (world s) = FsOk true ->
   fs_is_empty d (world s) = FsOk false ->
   among clipboard_name (load_destinations (items (copying s))) = true ->
   refused load_into_itself_message [EvExists d; EvStopIndicator] s r).
Proof.
  intros d r. subst d r. unfold refused. split; [| split].
  - intros Hex. load_start. rewrite Hex. cbn. repeat split.
  - intros Hex Hempty. load_start. rewrite Hex. load_start. rewrite Hempty.
    cbn. repeat split.
  - intros Hex Hempty Hself. load_start. rewrite Hex. load_start. rewrite Hempty.
    load_start. rewrite Hself. cbn. rewrite <- app_assoc. repeat split.
Qed.

(** X17.  When [load] goes ahead and the clipboards can be opened, one
    destination that cannot be emptied or copied to does not stop the
    others.  The handler returns normally; it counts nothing; each
    destination adds at most one failure, filed under the name of that
    destination, behind the failures recorded before. *)
Theorem load_records_at_most_one_failure_per_destination s :
  (forall n w, exists c w', open_clipboard n w = (FsOk c, w')) ->
  let d := data (path s) in
  let destinations := load_destinations (items (copying s)) in
  fs_exists d (world s) = FsOk true ->
  fs_is_empty d (world s) = FsOk false ->
  among clipboard_name destinations = false ->
  let r := load s in
  fst r = Ret tt /\
  successes (snd r) = successes s /\
  exists new,
    failedItems (copying (snd r)) = failedItems (copying s) ++ new /\
    length new <= length destinations /\
    Forall (fun failure => In (fst failure) destinations) new.
Proof.
  intros Hopen d destinations Hex Hempty Hself r.
  set (s0 := with_trace (trace s ++ [EvExists d]) s).
  destruct (load_loop_outcome destinations s0 Hopen) as (H1 & H2 & H3 & new & H4 & H5 & H6).
  assert (Hr : r = (let (o, s1) := for_each destinations load_into s0 in
                    match o with
                    | Ret _ =>
                        (stopIndicator ;;
                         tell (fprintf_stderr_count (replaceColors loaded_message)
                                 (length destinations)) ;;
                         if among default_clipboard_name destinations
                         then tell (update_gui_clipboard true)
                         else ret tt) s1
                    | Throw e => (Throw e, s1)
                    | Exit n => (Exit n, s1)
                    end)).
  { subst r. unfold load, bind at 1, gets at 1, bind at 1, query at 1.
    fold d. rewrite Hex. fold s0. unfold bind at 1, ask at 1.
    change (world s0) with (world s). rewrite Hempty.
    unfold bind at 1. cbn [negb orb]. unfold ret at 1.
    unfold bind at 1, gets at 1. change (items (copying s0)) with (items (copying s)).
    fold destinations. cbv zeta. unfold bind at 1. rewrite Hself. unfold ret at 1.
    unfold bind at 1. reflexivity. }
  clearbody r. subst r.
  destruct (for_each destinations load_into s0) as [o s1]. cbn [fst snd] in *. subst o.
  unfold bind, stopIndicator, log, tell, modify.
  destruct (among default_clipboard_name destinations); cbn;
    (repeat split; [exact H2 |]; exists new; repeat split; assumption).
Qed.

End MoreProperties.

(** * The further statements at sample inputs *)

Import Scenario2.
#[local] Existing Instance Desk.console.
#[local] Existing Instance Desk.clipboards.

Lemma copy_accounts_for_every_item_witness :
  let r := copy copying_two in
  action copying_two <> Cut /\
  fst r = Ret tt /\
  outcomes (snd r) = 2%N.
Proof.
  intros r.
  assert (Hcut : action copying_two <> Cut) by discriminate.
  split; [exact Hcut |].
  exact (copy_accounts_for_every_item copying_two Hcut).
Defined.

Lemma copyItem_failure_recorded_without_retry_witness :
  let s := copying_without_links in
  let r := copyItem "/src/a.txt" s in
  (fs_is_directory "/src/a.txt" (world s) = FsOk false /\
   fs_copy "/src/a.txt" "/clip/a.txt" 256%Z (world s)
   = (FsErr operation_not_permitted, world s) /\
   operation_not_permitted <> cross_device_link) /\
  (fst r = Ret tt /\
   world (snd r) = world s /\
   trace (snd r) = [EvIsDirectory "/src/a.txt"; EvCopy "/src/a.txt" "/clip/a.txt" 256%Z] /\
   failedItems (copying (snd r)) = [("/src/a.txt", operation_not_permitted)] /\
   successes (snd r) = successes s).
Proof.
  intros s r.
  assert (Hdir : fs_is_directory "/src/a.txt" (world s) = FsOk false) by reflexivity.
  assert (Hcopy : fs_copy "/src/a.txt" (data (path s) // filename "/src/a.txt")%path
                    (if use_safe_copy (copying s) then opts (copying s)
                     else Z.lor (opts (copying s)) create_hard_links) (world s)
                  = (FsErr operation_not_permitted, world s)) by reflexivity.
  assert (Hne : operation_not_permitted <> cross_device_link) by discriminate.
  split; [repeat split; assumption |].
  exact (copyItem_failure_recorded_without_retry "/src/a.txt" s _ _ Hdir Hcopy
           (or_intror Hne)).
Defined.


Lemma safe_copy_requests_only_configured_options_witness :
  (use_safe_copy (copying copying_safely) = true /\
   exists cs,
     copies (trace (snd (copy copying_safely))) = [] ++ cs /\
     Forall (copy_with 0%Z) cs)
  /\
  (use_safe_copy (copying pasting_safely) = true /\
   exists cs,
     copies (trace (snd (paste_loop [] ["/clip/apple.txt"; "/clip/banana.txt"]
                           pasting_safely))) = [] ++ cs /\
     Forall (copy_with 0%Z) cs).
Proof.
  destruct (@safe_copy_requests_only_configured_options Posix.platform) as [Hcopy Hpaste].
  split; (split; [reflexivity |]).
  - exact (Hcopy copying_safely eq_refl).
  - exact (Hpaste [] ["/clip/apple.txt"; "/clip/banana.txt"] pasting_safely eq_refl).
Defined.

Lemma paste_entry_to_fresh_target_witness :
  let s := pasting Unknown fresh [] in
  let r := paste_entry [] "/clip/apple.txt" s in
  (fs_exists "/home/apple.txt" (world s) = FsOk false /\
   paste_options "/clip/apple.txt" s = FsOk 256%Z) /\
  (fst r = Ret tt /\
   copies (trace (snd r)) = [EvCopy "/clip/apple.txt" "/home/apple.txt" 256%Z] /\
   prompts (trace (snd r)) = [] /\
   successes (snd r) = mkSuccesses 1 0 0 /\
   failedItems (copying (snd r)) = [] /\
   policy (copying (snd r)) = Unknown).
Proof.
  intros s r.
  pose (w1 := snd (Posix.copy "/clip/apple.txt" "/home/apple.txt" 256%Z (world s))).
  destruct (paste_entry_to_fresh_target [] "/clip/apple.txt" "/home" s 256%Z w1
              eq_refl eq_refl eq_refl eq_refl eq_refl)
    as (H1 & _ & H3 & H4 & H5 & H6 & H7).
  split; [split; reflexivity |]. repeat split; assumption.
Defined.

Lemma paste_entry_both_attempts_fail_witness :
  let s := pasting_in_vain in
  let r := paste_entry [] "/clip/apple.txt" s in
  use_safe_copy (copying s) = false /\
  fst r = Ret tt /\
  world (snd r) = world s /\
  copies (trace (snd r))
  = [EvCopy "/clip/apple.txt" "/home/apple.txt" 256%Z;
     EvCopy "/clip/apple.txt" "/home/apple.txt" 0%Z] /\
  failedItems (copying (snd r)) = [("apple.txt", permission_denied)] /\
  successes (snd r) = successes s.
Proof.
  intros s r. split; [reflexivity |].
  exact (paste_entry_both_attempts_fail [] "/clip/apple.txt" "/home" s 256%Z
           operation_not_permitted (world s) permission_denied (world s)
           eq_refl eq_refl eq_refl eq_refl eq_refl eq_refl eq_refl eq_refl).
Defined.

Lemma pasteItem_directory_is_copied_in_full_witness :
  let s := pasting Unknown staged_directory [] in
  (fs_exists "/home/photos" (world s) = FsOk false /\
   fs_is_directory "/clip/photos" (world s) = FsOk true) /\
  copies (trace (snd (pasteItem "/clip/photos" "/home/photos" false s)))
  = [EvCopy "/clip/photos" "/home/photos" 0%Z].
Proof.
  intros s. split; [split; reflexivity |].
  exact (pasteItem_directory_is_copied_in_full "/clip/photos" "/home/photos" false s
           eq_refl eq_refl).
Defined.

Lemma paste_loop_passing_over_changes_nothing_witness :
  let s := pasting SkipAll staged [] in
  let r := paste_loop [] ["/clip/apple.txt"; "/clip/banana.txt"] s in
  Forall (passed_over [] "/home" s) ["/clip/apple.txt"; "/clip/banana.txt"] /\
  fst r = Ret tt /\
  world (snd r) = world s /\
  copying (snd r) = copying s /\
  successes (snd r) = successes s /\
  writes (trace (snd r)) = writes (trace s) /\
  prompts (trace (snd r)) = prompts (trace s).
Proof.
  intros s r.
  assert (Hall : Forall (passed_over [] "/home" s) ["/clip/apple.txt"; "/clip/banana.txt"]).
  { repeat constructor; right; split; reflexivity. }
  split; [exact Hall |].
  exact (paste_loop_passing_over_changes_nothing
           [] ["/clip/apple.txt"; "/clip/banana.txt"] "/home" s eq_refl Hall).
Defined.

Lemma paste_errors_outside_the_try_escape_witness :
  (let s := pasting Unknown no_clip [] in
   fs_directory_iterator "/clip" (world s) = FsErr no_such_file_or_directory /\
   paste (ret tt) s
   = (Throw (filesystem_error no_such_file_or_directory),
      with_trace [EvDirectoryIterator "/clip"] s))
  /\
  (let s := Lost.state_of ["b.*"] false Unknown Paste File fresh in
   @fs_current_path Lost.platform (world s) = FsErr no_such_file_or_directory /\
   @paste Lost.platform (ret tt) s
   = (Throw (filesystem_error no_such_file_or_directory),
      with_trace [EvDirectoryIterator "/clip"; EvCurrentPath] s)).
Proof.
  split.
  - intros s. split; [reflexivity |].
    destruct (paste_errors_outside_the_try_escape (ret tt) [] s eq_refl) as [Hopen _].
    exact (Hopen no_such_file_or_directory eq_refl).
  - intros s. split; [reflexivity |].
    destruct (@paste_errors_outside_the_try_escape Lost.platform (ret tt)
                [[(Posix.Lit "b"%char, false); (Posix.AnyChar, true)]] s eq_refl)
      as [_ Hcwd].
    exact (Hcwd no_such_file_or_directory "/clip/apple.txt" ["/clip/banana.txt"]
             eq_refl eq_refl).
Defined.

Lemma posix_remove_all_returns p w :
  exists n w', @fs_remove_all Posix.platform p w = (FsOk n, w').
Proof.
  cbn. unfold Posix.remove_all.
  destruct (Posix.lookup p (Posix.nodes w)); eexists; eexists; reflexivity.
Qed.

Lemma removeRegex_files_counts_every_matching_pattern_witness :
  let s := removing ["a.*"; ".*"] fresh in
  let regexes := [a_star; [(Posix.AnyChar, true)]] in
  let entries := ["/clip/apple.txt"; "/clip/banana.txt"] in
  let r := removeRegex_files regexes s in
  matching_pairs entries regexes = 3 /\
  fst r = Ret tt /\
  total (successes (snd r)) = 3%N /\
  failedItems (copying (snd r)) = [].
Proof.
  intros s regexes entries r. split; [reflexivity |].
  assert (Hsome : matching_pairs entries regexes <> 0) by discriminate.
  exact (removeRegex_files_counts_every_matching_pattern regexes entries s
           posix_remove_all_returns eq_refl Hsome).
Defined.

Lemma removeRegex_text_rewrites_the_content_witness :
  let s := removing ["l"] text in
  let r := removeRegex s in
  fs_is_regular_file "/clip/rawdata.clipboard" (world s) = FsOk true /\
  fst r = Ret tt /\
  trace (snd r)
  = [EvIsRegularFile "/clip/rawdata.clipboard"; EvFileContents "/clip/rawdata.clipboard";
     EvWriteToFile "/clip/rawdata.clipboard" "heo" false] /\
  bytes (successes (snd r)) = 2%N /\
  files (successes (snd r)) = 0%N /\
  directories (successes (snd r)) = 0%N.
Proof.
  intros s r. split; [reflexivity |].
  assert (Hpat : removeRegex_patterns s = (Ret [[(Posix.Lit "l"%char, false)]], s))
    by reflexivity.
  assert (Hlen : String.length "heo" <> String.length "hello") by discriminate.
  destruct (removeRegex_text_rewrites_the_content s _ s Hpat eq_refl Hlen)
    as (H1 & H2 & _ & H4 & H5 & H6).
  repeat split; assumption.
Defined.

Lemma removeRegex_invalid_pattern_aborts_witness :
  (let s := removing ["a.*"; "("] fresh in
   io_type s <> Pipe /\
   removeRegex s = (Throw regex_error, s))
  /\
  (let s := removing_piped "(" in
   io_type s = Pipe /\
   fst (removeRegex s) = Throw regex_error /\
   trace (snd (removeRegex s)) = [EvPipedInContent]).
Proof.
  split.
  - intros s.
    assert (Hio : io_type s <> Pipe) by discriminate.
    split; [exact Hio |].
    destruct (removeRegex_invalid_pattern_aborts s) as [Hitems _].
    apply (Hitems Hio). exists "(". split; [right; left; reflexivity | reflexivity].
  - intros s. split; [reflexivity |].
    destruct (removeRegex_invalid_pattern_aborts s) as [_ Hpipe].
    rewrite (Hpipe eq_refl eq_refl). split; reflexivity.
Defined.

Lemma addFiles_refuses_text_else_accounts_for_every_item_witness :
  (let s := adding text in
   fs_is_regular_file "/clip/rawdata.clipboard" (world s) = FsOk true /\
   fst (addFiles s) = Exit EXIT_FAILURE /\
   trace (snd (addFiles s)) = [EvIsRegularFile "/clip/rawdata.clipboard"] /\
   successes (snd (addFiles s)) = successes s)
  /\
  (let s := adding fresh in
   fs_is_regular_file "/clip/rawdata.clipboard" (world s) = FsOk false /\
   fst (addFiles s) = Ret tt /\
   outcomes (snd (addFiles s)) = 1%N).
Proof.
  split.
  - intros s. split; [reflexivity |].
    destruct (addFiles_refuses_text_else_accounts_for_every_item s) as [Htext _].
    destruct (Htext eq_refl) as (H1 & _ & H3 & _ & H5). repeat split; assumption.
  - intros s. split; [reflexivity |].
    destruct (addFiles_refuses_text_else_accounts_for_every_item s) as [_ Hfiles].
    assert (Hcut : action s <> Cut) by discriminate.
    exact (Hfiles eq_refl Hcut).
Defined.

Lemma load_refuses_before_touching_any_clipboard_witness :
  (let s := loading ["1"] no_clip in
   fs_exists "/clip" (world s) = FsOk false /\
   refused load_from_empty_message [EvExists "/clip"] s (load s))
  /\
  (let s := loading ["1"] empty_clip in
   fs_is_empty "/clip" (world s) = FsOk true /\
   refused load_from_empty_message [EvExists "/clip"] s (load s))
  /\
  (let s := loading [] fresh in
   among clipboard_name (load_destinations (items (copying s))) = true /\
   refused load_into_itself_message [EvExists "/clip"; EvStopIndicator] s (load s)).
Proof.
  split; [| split]; intros s; (split; [reflexivity |]);
    destruct (load_refuses_before_touching_any_clipboard s) as (Hmissing & Hempty & Hself).
  - exact (Hmissing eq_refl).
  - exact (Hempty eq_refl eq_refl).
  - exact (Hself eq_refl eq_refl eq_refl).
Defined.

Lemma desk_open_clipboard_returns n w :
  exists c w', @open_clipboard Posix.platform Desk.clipboards n w = (FsOk c, w').
Proof.
  cbn. destruct (Posix.create_directories _ w). eexists; eexists; reflexivity.
Qed.

Lemma load_records_at_most_one_failure_per_destination_witness :
  let s := loading ["1"; "2"] fresh in
  let r := load s in
  (fs_exists "/clip" (world s) = FsOk true /\
   fs_is_empty "/clip" (world s) = FsOk false /\
   among clipboard_name ["1"; "2"] = false) /\
  (fst r = Ret tt /\
   successes (snd r) = successes s /\
   exists new,
     failedItems (copying (snd r)) = failedItems (copying s) ++ new /\
     length new <= 2 /\
     Forall (fun failure => In (fst failure) ["1"; "2"]) new).
Proof.
  intros s r. split; [repeat split |].
  exact (load_records_at_most_one_failure_per_destination s desk_open_clipboard_returns
           eq_refl eq_refl eq_refl).
Defined.
